(** * Skepticoin: consensus helpers, peer address book and the LocalPeer loop

    A shallow embedding of [skepticoin/networking/local_peer.py] and of the
    consensus functions exercised by [tests/test_consensus.py].

    Python integers are [Z]; dictionaries are [gmap]; a call that may raise
    returns an [outcome]; code that mutates objects threads an explicit world. *)

From Stdlib Require Import ZArith Lia Bool.
From stdpp Require Import gmap strings list fin_maps pretty.

Local Open Scope string_scope.
Local Open Scope list_scope.
Local Open Scope Z_scope.
Local Open Scope stdpp_scope.

(** ** Python exceptions

    Every class below derives from [Exception], which is what the
    [except Exception] clauses of the program match.  Signals deriving from
    [BaseException] only ([KeyboardInterrupt], [SystemExit]) are not raised by
    the modelled operations and are not values of this type. *)
Inductive PyExcClass : Type :=
  | Exception_
  | OSError
  | ConnectionResetError
  | BlockingIOError
  | FileNotFoundError
  | KeyError
  | ValueError
  | AssertionError
  | ValidationError
  | ValidateTransactionError.

Record PyExc : Type := mkExc { exc_class : PyExcClass; exc_msg : string }.

(** [isinstance(e, OSError)]: the class itself and its subclasses. *)
Definition is_OSError (c : PyExcClass) : bool :=
  match c with
  | OSError | ConnectionResetError | BlockingIOError | FileNotFoundError => true
  | _ => false
  end.

(** [isinstance(e, ValidationError)]. *)
Definition is_ValidationError (c : PyExcClass) : bool :=
  match c with
  | ValidationError | ValidateTransactionError => true
  | _ => false
  end.

(** The result of a call: it returns a value or raises. *)
Inductive outcome (A : Type) : Type :=
  | Returns (a : A)
  | Raises (e : PyExc).
Arguments Returns {A} a.
Arguments Raises {A} e.

(** * Consensus *)
Module Consensus.

(** Modelled from the spec: [skepticoin/consensus.py] and
    [skepticoin/params.py] are not among the sources; only their tests are.
    The base amount (10 coins) and the interval (1,050,000 blocks) are the
    ones the spec and [test_get_block_subsidy] give. *)
Definition SUBSIDY_HALVING_INTERVAL : Z := 1050000.

Section Subsidy.

(** Number of smallest units in one coin; its value is not in the sources. *)
Variable SASHIMI_PER_COIN : Z.

(** Modelled from the spec: the base amount of the schedule, ten coins
    ([10 * SASHIMI_PER_COIN] in [test_get_block_subsidy]). *)
Definition INITIAL_SUBSIDY : Z := 10 * SASHIMI_PER_COIN.

(** Modelled from the spec: "halves every fixed block-count interval
    starting from a fixed base amount ... computed by integer halving":
    the base shifted right once per completed interval. *)
Definition get_block_subsidy (height : Z) : Z :=
  let halvings := height / SUBSIDY_HALVING_INTERVAL in
  Z.shiftr INITIAL_SUBSIDY halvings.

End Subsidy.

(** *** Transactions

    [skepticoin/datatypes.py] and [skepticoin/signing.py] are not among the
    sources.  The records below follow the spec's data model and the
    constructors the tests call. *)

(** A Python [bytes] value: the list of its bytes, each in 0..255. *)
Definition bytes : Type := list Z.

(** Modelled from the spec: the class [OutputReference] of [datatypes.py],
    "(hash, index) pair". *)
Record OutputReference : Type :=
  mkOutputReference { hash : bytes; index : Z }.

(** Modelled from the spec: the classes of [signing.py] that can sit in an
    input's signature slot: a signature of some scheme, the non-signature
    placeholder, or the data carried by a coinbase input. *)
Inductive Signature : Type :=
  | SECP256k1Signature (signature : bytes)
  | SignableEquivalent
  | CoinbaseData (height : Z) (signature : bytes).

(** Modelled from the spec: the class [Input] of [datatypes.py], "reference
    to a previous Output plus a signature object". *)
Record Input : Type :=
  mkInput { output_reference : OutputReference; signature : Signature }.

(** Modelled from the spec: the class [Output] of [datatypes.py], "amount
    (integer, smallest unit) + recipient public key". *)
Record Output : Type :=
  mkOutput { value : Z; public_key : bytes }.

(** Modelled from the spec: the class [Transaction] of [datatypes.py],
    "ordered sequence of Inputs, ordered sequence of Outputs". *)
Record Transaction : Type :=
  mkTransaction { inputs : list Input; outputs : list Output }.

#[global] Instance OutputReference_eq_dec : EqDecision OutputReference.
Proof. solve_decision. Defined.

(** Modelled from the spec: the "reserved null" reference of a coinbase
    input, [OutputReference(b'\x00' * 32, 0)] in the tests. *)
Definition null_reference : OutputReference :=
  mkOutputReference (replicate 32 0) 0.

Definition is_null_reference (r : OutputReference) : bool :=
  bool_decide (r = null_reference).

Definition is_placeholder (s : Signature) : bool :=
  match s with SignableEquivalent => true | _ => false end.

(** Does some reference occur twice in the list? *)
Fixpoint has_duplicates (l : list OutputReference) : bool :=
  match l with
  | [] => false
  | r :: l' => bool_decide (r ∈ l') || has_duplicates l'
  end.

Definition total_output_value (tx : Transaction) : Z :=
  foldr Z.add 0 (value <$> outputs tx).

Section NonCoinbase.

(** The wire format, the maximum size and the supply range are constants of
    modules that are not among the sources. *)
Variable serialize : Transaction -> bytes.
Variable MAX_BLOCK_SIZE : Z.
Variable in_supply_range : Z -> bool.

Definition transaction_error (msg : string) : PyExc :=
  mkExc ValidateTransactionError msg.

(** Modelled from the spec: "requires >= 1 input and >= 1 output; requires
    serialized size below a fixed maximum; requires no duplicate
    OutputReference across inputs; requires every input's reference to be
    non-null; requires the signature object to actually be a signature
    variant; requires total output value within the valid coin-supply
    range".  The messages and classes are those the tests match. *)
Definition validate_non_coinbase_transaction_by_itself
    (tx : Transaction) : outcome unit :=
  if bool_decide (inputs tx = []) then
    Raises (transaction_error "No inputs")
  else if bool_decide (outputs tx = []) then
    Raises (transaction_error "No outputs")
  else if MAX_BLOCK_SIZE <? Z.of_nat (length (serialize tx)) then
    Raises (transaction_error "transaction > MAX_BLOCK_SIZE")
  else if has_duplicates (output_reference <$> inputs tx) then
    Raises (transaction_error "output_reference referenced more than once")
  else if existsb (fun i => is_null_reference (output_reference i)) (inputs tx) then
    Raises (transaction_error "null-reference in non-coinbase transaction")
  else if existsb (fun i => is_placeholder (signature i)) (inputs tx) then
    Raises (transaction_error "Non-signature Signature class used")
  else if negb (in_supply_range (total_output_value tx)) then
    Raises (mkExc ValidationError "value out of range")
  else Returns tt.

(** The seven ways a transaction can be malformed on its own. *)
Inductive Defect : Type :=
  | NoInputs
  | NoOutputs
  | TooLarge
  | DuplicateReference
  | NullReference
  | PlaceholderSignature
  | ValueOutOfRange.

Definition has_defect (d : Defect) (tx : Transaction) : Prop :=
  match d with
  | NoInputs => inputs tx = []
  | NoOutputs => outputs tx = []
  | TooLarge => MAX_BLOCK_SIZE < Z.of_nat (length (serialize tx))
  | DuplicateReference => ¬ NoDup (output_reference <$> inputs tx)
  | NullReference => ∃ i, i ∈ inputs tx ∧ output_reference i = null_reference
  | PlaceholderSignature => ∃ i, i ∈ inputs tx ∧ signature i = SignableEquivalent
  | ValueOutOfRange => in_supply_range (total_output_value tx) = false
  end.

(** The error each defect is reported with. *)
Definition defect_error (d : Defect) : PyExc :=
  match d with
  | NoInputs => transaction_error "No inputs"
  | NoOutputs => transaction_error "No outputs"
  | TooLarge => transaction_error "transaction > MAX_BLOCK_SIZE"
  | DuplicateReference =>
      transaction_error "output_reference referenced more than once"
  | NullReference =>
      transaction_error "null-reference in non-coinbase transaction"
  | PlaceholderSignature =>
      transaction_error "Non-signature Signature class used"
  | ValueOutOfRange => mkExc ValidationError "value out of range"
  end.

End NonCoinbase.

(** The transactions of the tests, with a supply of 21,000,000 coins of
    100,000,000 units, a maximum size of 1,000,000 bytes and inputs and
    outputs of 100 bytes each. *)
Definition example_public_key : bytes := replicate 64 120.

Definition example_input : Input :=
  mkInput (mkOutputReference (replicate 32 97) 1)
    (SECP256k1Signature (replicate 64 121)).

Definition example_serialize (tx : Transaction) : bytes :=
  replicate (100 * (length (inputs tx) + length (outputs tx))) 0.

Definition example_in_supply_range (v : Z) : bool :=
  (0 <=? v) && (v <? 21000000 * 100000000).

End Consensus.

(** * Effects

    Methods that mutate objects and call into the operating system are
    functions from a world [W] to an outcome, the world they leave behind (also
    when they raise) and the events [Ev] they emitted, oldest first. *)
Definition M (W Ev A : Type) : Type := W -> outcome A * W * list Ev.

#[global] Instance M_ret {W Ev} : MRet (M W Ev) :=
  fun A a w => (Returns a, w, []).

#[global] Instance M_bind {W Ev} : MBind (M W Ev) :=
  fun A B f m w =>
    match m w with
    | (Returns a, w1, t1) =>
        match f a w1 with (r, w2, t2) => (r, w2, t1 ++ t2) end
    | (Raises e, w1, t1) => (Raises e, w1, t1)
    end.

(** [raise e]. *)
Definition throw {W Ev A} (e : PyExc) : M W Ev A :=
  fun w => (Raises e, w, []).

(** Record one event. *)
Definition emit {W Ev} (ev : Ev) : M W Ev unit :=
  fun w => (Returns tt, w, [ev]).

Definition get_world {W Ev} : M W Ev W :=
  fun w => (Returns w, w, []).

Definition modify_world {W Ev} (f : W -> W) : M W Ev unit :=
  fun w => (Returns tt, f w, []).

(** [try: body  except C1: h1  except C2: h2 ...]: the first clause whose
    class test accepts the exception runs; an exception no clause accepts, or
    one raised by a handler, propagates. *)
Fixpoint find_handler {B} (clauses : list ((PyExc -> bool) * B)) (e : PyExc)
    : option B :=
  match clauses with
  | [] => None
  | (handles, h) :: rest => if handles e then Some h else find_handler rest e
  end.

Definition try_except {W Ev A} (body : M W Ev A)
    (clauses : list ((PyExc -> bool) * (PyExc -> M W Ev A))) : M W Ev A :=
  fun w =>
    match body w with
    | (Raises e, w1, t1) =>
        match find_handler clauses e with
        | Some handler =>
            match handler e w1 with (r, w2, t2) => (r, w2, t1 ++ t2) end
        | None => (Raises e, w1, t1)
        end
    | done => done
    end.

(** [except OSError] and [except Exception]. *)
Definition except_OSError (e : PyExc) : bool := is_OSError (exc_class e).
Definition except_Exception (e : PyExc) : bool := true.

(** [try: body  finally: cleanup]; the outcome of [body] is kept unless
    [cleanup] itself raises. *)
Definition try_finally {W Ev A} (body : M W Ev A) (cleanup : M W Ev unit)
    : M W Ev A :=
  fun w =>
    match body w with
    | (r, w1, t1) =>
        match cleanup w1 with
        | (Returns _, w2, t2) => (r, w2, t1 ++ t2)
        | (Raises e, w2, t2) => (Raises e, w2, t1 ++ t2)
        end
    end.

Definition result_of {W Ev A} (x : outcome A * W * list Ev) : outcome A := x.1.1.
Definition world_of {W Ev A} (x : outcome A * W * list Ev) : W := x.1.2.
Definition events_of {W Ev A} (x : outcome A * W * list Ev) : list Ev := x.2.

(** * Networking *)
Module Networking.

(** Modelled from the spec: the constants [INCOMING], [OUTGOING] and
    [IRRELEVANT] of [skepticoin/networking/remote_peer.py], which is not among
    the sources ("direction: incoming/outgoing/irrelevant"). *)
Inductive Direction : Type := INCOMING | OUTGOING | IRRELEVANT.

#[global] Instance Direction_eq_dec : EqDecision Direction.
Proof. solve_decision. Defined.

(** A port is an integer, or a string where the port is irrelevant (see the
    remark in [show_stats]). *)
Inductive PortValue : Type :=
  | PortInt (n : Z)
  | PortStr (s : string).

#[global] Instance PortValue_eq_dec : EqDecision PortValue.
Proof. solve_decision. Defined.

(** Modelled from the spec: the class [ConnectedRemotePeer] of
    [remote_peer.py], "connection identity (host, port, direction), liveness
    flag (handshake received)", with the fields [local_peer.py] reads; [sock]
    is the descriptor of its socket object. *)
Record ConnectedRemotePeer : Type := mkConnected {
  host : string;
  port : PortValue;
  direction : Direction;
  hello_received : bool;
  sock : Z
}.

#[global] Instance ConnectedRemotePeer_eq_dec : EqDecision ConnectedRemotePeer.
Proof. solve_decision. Defined.

(** Modelled from the spec: the class [DisconnectedRemotePeer] of
    [remote_peer.py], with the fields [local_peer.py] reads. *)
Record DisconnectedRemotePeer : Type := mkDisconnected {
  d_host : string;
  d_port : PortValue;
  d_direction : Direction
}.

(** ** DiskInterface *)

(** One entry of the address book. *)
Definition PeerTuple : Type := string * PortValue * Direction.

(** What a file holds: raw bytes ([Binary []] is the empty file) or the text
    that [json.dump] produced for a list of tuples at some indentation. *)
Inductive FileData : Type :=
  | Binary (b : list Z)
  | Json (doc : list PeerTuple) (indent : Z).

#[global] Instance FileData_eq_dec : EqDecision FileData.
Proof. solve_decision. Defined.

(** The disk: file name to content.  Every primitive emits the disk it
    leaves, so the events of a method are the states the disk went through. *)
Abbreviation Disk := (gmap string FileData).
Abbreviation DiskM := (M (gmap string FileData) (gmap string FileData)).

(** [open(name, "w")]: creates the file or truncates it to zero length. *)
Definition open_w (name : string) : DiskM string :=
  fun fs => let fs' := <[name := Binary []]> fs in (Returns name, fs', [fs']).

(** [json.dump(doc, f, indent=indent)] on a file opened by [open_w]. *)
Definition json_dump (doc : list PeerTuple) (f : string) (indent : Z)
    : DiskM unit :=
  fun fs => let fs' := <[f := Json doc indent]> fs in (Returns tt, fs', [fs']).

(** [os.remove(name)]. *)
Definition os_remove (name : string) : DiskM unit :=
  fun fs =>
    match fs !! name with
    | Some _ => let fs' := delete name fs in (Returns tt, fs', [fs'])
    | None => (Raises (mkExc FileNotFoundError name), fs, [])
    end.

Definition qualifies (remote_peer : ConnectedRemotePeer) : bool :=
  bool_decide (direction remote_peer = OUTGOING) && hello_received remote_peer.

(** The list comprehension of [overwrite_peers]. *)
Definition peers_db (peers : list ConnectedRemotePeer) : list PeerTuple :=
  (fun remote_peer => (host remote_peer, port remote_peer, direction remote_peer))
    <$> List.filter qualifies peers.

Definition overwrite_peers (peers : list ConnectedRemotePeer) : DiskM unit :=
  let db := peers_db peers in
  match db with
  | _ :: _ =>
      f ← open_w "peers.json";
      json_dump db f 4
  | [] => os_remove "peers.json"
  end.


(** A rewrite of file [name] is atomic when the disk never shows anything
    but the old file or the complete new one. *)
Definition atomic_rewrite (name : string) (before : gmap string FileData)
    (states : list (gmap string FileData)) (new : FileData) : Prop :=
  Forall (fun fs => fs !! name = before !! name ∨ fs !! name = Some new) states.

(** An outgoing peer that has completed its handshake, an incoming one, and
    a disk that holds an address book. *)
Definition outgoing_peer : ConnectedRemotePeer :=
  mkConnected "10.0.0.7" (PortInt 2412) OUTGOING true 5.

Definition incoming_peer : ConnectedRemotePeer :=
  mkConnected "10.0.0.8" (PortInt 40000) INCOMING true 6.

Definition old_disk : gmap string FileData :=
  <["peers.json" := Json [("10.0.0.9", PortInt 2412, OUTGOING)] 4]> ∅.

(** ** The selector *)

(** [key.data]: the marker [LISTENING_SOCKET] (a constant of
    [remote_peer.py]) or the peer object. *)
Inductive KeyData : Type :=
  | LISTENING_SOCKET
  | PeerData (remote_peer : ConnectedRemotePeer).

#[global] Instance KeyData_eq_dec : EqDecision KeyData.
Proof. solve_decision. Defined.

Record SelectorKey : Type := mkKey { fileobj : Z; data : KeyData }.

Definition EVENT_READ : Z := 1.
Definition EVENT_WRITE : Z := 2.

(** ** LocalPeer *)

(** The objects a [LocalPeer] owns, and [env], everything else it talks to:
    the operating system, the peer sessions and the two managers. *)
Record World (Env : Type) : Type := mkWorld {
  running : bool;
  selector_map : gmap Z KeyData;
  env : Env
}.
Arguments mkWorld {Env} _ _ _.
Arguments running {Env} _.
Arguments selector_map {Env} _.
Arguments env {Env} _.

Definition set_running {Env} (b : bool) (w : World Env) : World Env :=
  mkWorld b (selector_map w) (env w).
Definition set_selector_map {Env} (m : gmap Z KeyData) (w : World Env)
    : World Env :=
  mkWorld (running w) m (env w).
Definition set_env {Env} (e : Env) (w : World Env) : World Env :=
  mkWorld (running w) (selector_map w) e.

Inductive Manager : Type := NetworkManager | ChainManager.

#[global] Instance Manager_eq_dec : EqDecision Manager.
Proof. solve_decision. Defined.

Inductive LogLevel : Type := INFO | WARNING | ERROR.

(** What a method does that is visible from outside it, in order: log
    records (format and arguments) and the calls it makes. *)
Inductive Event : Type :=
  | Log (level : LogLevel) (fmt : string) (args : list string)
  | SocketNew
  | SetBlocking (fd : Z) (flag : bool)
  | ConnectEx (fd : Z) (addr : string * PortValue)
  | Accept (fd : Z)
  | GetPeerName (fd : Z)
  | Recv (fd : Z) (bufsize : Z)
  | SockClose (fd : Z)
  | Select (timeout : Z)
  | Register (fd : Z) (d : KeyData)
  | Unregister (fd : Z)
  | SelectorClose
  | HandleReceiveData (remote_peer : ConnectedRemotePeer) (recv_data : list Z)
  | HandleCanSend (remote_peer : ConnectedRemotePeer) (fd : Z)
  | HandlePeerConnected (remote_peer : ConnectedRemotePeer)
  | HandlePeerDisconnected (remote_peer : ConnectedRemotePeer)
  | ManagerStep (m : Manager) (current_time : Z).

(** The collaborators of [LocalPeer].  Calls into the operating system act on
    the environment only; the peer sessions and the managers hold a reference
    to the [LocalPeer] and may call back into it, so they act on the world. *)
Class Externals (Env : Type) : Type := {
  sys_platform : string;
  time_now : Env -> Z;
  sock_closed : Z -> Env -> bool;
  socket_new : Env -> outcome Z * Env;
  sock_setblocking : Z -> bool -> Env -> outcome unit * Env;
  sock_connect_ex : Z -> string * PortValue -> Env -> outcome Z * Env;
  sock_accept : Z -> Env -> outcome Z * Env;
  sock_getpeername : Z -> Env -> outcome (string * Z) * Env;
  sock_recv : Z -> Z -> Env -> outcome (list Z) * Env;
  sock_close : Z -> Env -> outcome unit * Env;
  selector_select :
    gmap Z KeyData -> Z -> Env -> outcome (list (SelectorKey * Z)) * Env;
  handle_receive_data :
    ConnectedRemotePeer -> list Z -> World Env -> outcome unit * World Env;
  handle_can_send :
    ConnectedRemotePeer -> Z -> World Env -> outcome unit * World Env;
  handle_peer_connected :
    ConnectedRemotePeer -> World Env -> outcome unit * World Env;
  handle_peer_disconnected :
    ConnectedRemotePeer -> World Env -> outcome unit * World Env;
  manager_step : Manager -> Z -> World Env -> outcome unit * World Env
}.


(** [MAX_SELECTOR_SIZE_BY_PLATFORM]. *)
Definition MAX_SELECTOR_SIZE_BY_PLATFORM : gmap string Z :=
  <["win32" := 64]> (<["linux" := 512]> ∅).

(** [d.get(k, default)]. *)
Definition dict_get {V} (d : gmap string V) (k : string) (default : V) : V :=
  match d !! k with Some v => v | None => default end.

(** [needle in haystack] on strings. *)
Definition str_contains (needle haystack : string) : bool :=
  match String.index 0 needle haystack with Some _ => true | None => false end.

(** Modelled from the spec: [DisconnectedRemotePeer.as_connected] belongs to
    [remote_peer.py], which is not among the sources; the connected peer
    keeps the identity of the candidate and has not completed its handshake. *)
Definition as_connected (disconnected_peer : DisconnectedRemotePeer) (fd : Z)
    : ConnectedRemotePeer :=
  mkConnected (d_host disconnected_peer) (d_port disconnected_peer)
    (d_direction disconnected_peer) false fd.

Definition is_log (ev : Event) : bool :=
  match ev with Log _ _ _ => true | _ => false end.

Definition is_manager_step (ev : Event) : bool :=
  match ev with ManagerStep _ _ => true | _ => false end.

Definition is_selector_close (ev : Event) : bool :=
  match ev with SelectorClose => true | _ => false end.

Definition is_error_log (ev : Event) : bool :=
  match ev with Log ERROR _ _ => true | _ => false end.

(** Events of the traffic with peers: anything but a manager's step and the
    closing of the selector. *)
Definition is_peer_traffic (ev : Event) : bool :=
  negb (is_manager_step ev) && negb (is_selector_close ev).

(** The calls among the events of a method, without its log records. *)
Definition calls_of (t : list Event) : list Event :=
  List.filter (fun ev => negb (is_log ev)) t.

Section LocalPeer.

Context {Env : Type} `{Ext : Externals Env}.

Abbreviation LP := (M (World Env) Event).

(** A call into the operating system. *)
Definition os_call {A} (ev : Event) (f : Env -> outcome A * Env) : LP A :=
  fun w => match f (env w) with (r, e') => (r, set_env e' w, [ev]) end.

(** A call into a peer session or a manager. *)
Definition app_call {A} (ev : Event)
    (f : World Env -> outcome A * World Env) : LP A :=
  fun w => match f w with (r, w') => (r, w', [ev]) end.

Definition logger (level : LogLevel) (fmt : string) (args : list string)
    : LP unit :=
  emit (Log level fmt args).

(** [selector.register(fileobj, events, data)]: [KeyError] for a socket that
    is registered already, [ValueError] for a closed one. *)
Definition selector_register (fd : Z) (d : KeyData) : LP unit :=
  fun w =>
    match selector_map w !! fd with
    | Some _ =>
        (Raises (mkExc KeyError "already registered"), w, [Register fd d])
    | None =>
        if sock_closed fd (env w) then
          (Raises (mkExc ValueError "Invalid file descriptor: -1"), w,
           [Register fd d])
        else
          (Returns tt, set_selector_map (<[fd := d]> (selector_map w)) w,
           [Register fd d])
    end.

(** [selector.unregister(fileobj)]: a registered socket is looked up by
    identity, also when it is closed; otherwise [ValueError] for a closed
    socket and [KeyError] for an open one. *)
Definition selector_unregister (fd : Z) : LP unit :=
  fun w =>
    match selector_map w !! fd with
    | Some _ =>
        (Returns tt, set_selector_map (delete fd (selector_map w)) w,
         [Unregister fd])
    | None =>
        if sock_closed fd (env w) then
          (Raises (mkExc ValueError "Invalid file descriptor: -1"), w,
           [Unregister fd])
        else (Raises (mkExc KeyError "not registered"), w, [Unregister fd])
    end.

(** [selector.close()]: releases the registration set. *)
Definition selector_close : LP unit :=
  fun w => (Returns tt, set_selector_map ∅ w, [SelectorClose]).

Definition disconnect (remote_peer : ConnectedRemotePeer) (reason : string)
    : LP unit :=
  logger INFO "%15s LocalPeer.disconnect(%s)" [host remote_peer; reason];;
  try_except
    (selector_unregister (sock remote_peer);;
     os_call (SockClose (sock remote_peer)) (sock_close (sock remote_peer));;
     app_call (HandlePeerDisconnected remote_peer)
       (handle_peer_disconnected remote_peer))
    [(except_Exception,
      fun e => logger INFO "%15s Error while disconnecting %s" [""; exc_msg e])].

Definition handle_incoming_connection (lsock : Z) : LP unit :=
  logger INFO "%15s LocalPeer.handle_incoming_connection()" [""];;
  conn ← os_call (Accept lsock) (sock_accept lsock);
  os_call (SetBlocking conn false) (sock_setblocking conn false);;
  name0 ← os_call (GetPeerName conn) (sock_getpeername conn);
  name1 ← os_call (GetPeerName conn) (sock_getpeername conn);
  let remote_host := name0.1 in
  let remote_port := name1.2 in
  let remote_peer :=
    mkConnected remote_host (PortInt remote_port) INCOMING false conn in
  selector_register conn (PeerData remote_peer);;
  app_call (HandlePeerConnected remote_peer)
    (handle_peer_connected remote_peer).

(** The body of the [try] statement of [handle_remote_peer_selector_event]. *)
Definition peer_event_body (remote_peer : ConnectedRemotePeer) (fd : Z)
    (mask : Z) : LP unit :=
  (if bool_decide (Z.land mask EVENT_READ ≠ 0) then
     recv_data ← os_call (Recv fd 1024) (sock_recv fd 1024);
     match recv_data with
     | _ :: _ =>
         app_call (HandleReceiveData remote_peer recv_data)
           (handle_receive_data remote_peer recv_data)
     | [] => disconnect remote_peer "connection closed remotely"
     end
   else mret tt);;
  (if bool_decide (Z.land mask EVENT_WRITE ≠ 0) then
     app_call (HandleCanSend remote_peer fd) (handle_can_send remote_peer fd)
   else mret tt).

(** Its [except OSError] clause. *)
Definition on_OSError (remote_peer : ConnectedRemotePeer) (e : PyExc)
    : LP unit :=
  logger INFO "%15s Disconnecting remote peer %s"
    [host remote_peer; exc_msg e];;
  disconnect remote_peer "OS error".

(** Its [except Exception] clause. *)
Definition on_Exception (remote_peer : ConnectedRemotePeer) (e : PyExc)
    : LP unit :=
  logger INFO "%15s Disconnecting remote peer %s"
    [host remote_peer; exc_msg e];;
  (if negb (str_contains "ValueError: Invalid file descriptor: " (exc_msg e))
   then logger WARNING "traceback" [exc_msg e]
   else mret tt);;
  disconnect remote_peer "Exception".

Definition handle_remote_peer_selector_event (key : SelectorKey) (mask : Z)
    : LP unit :=
  let fd := fileobj key in
  match data key with
  | LISTENING_SOCKET => throw (mkExc AssertionError "")
  | PeerData remote_peer =>
      try_except (peer_event_body remote_peer fd mask)
        [(except_OSError, on_OSError remote_peer);
         (except_Exception, on_Exception remote_peer)]
  end.

Definition start_outgoing_connection
    (disconnected_peer : DisconnectedRemotePeer) : LP unit :=
  logger INFO "%15s LocalPeer.start_outgoing_connection()"
    [d_host disconnected_peer];;
  let max_selector_map_size :=
    dict_get MAX_SELECTOR_SIZE_BY_PLATFORM sys_platform 64 in
  w ← get_world;
  if bool_decide (max_selector_map_size ≤ Z.of_nat (size (selector_map w)))
  then mret tt
  else
    let server_addr := (d_host disconnected_peer, d_port disconnected_peer) in
    fd ← os_call SocketNew socket_new;
    os_call (SetBlocking fd false) (sock_setblocking fd false);;
    os_call (ConnectEx fd server_addr) (sock_connect_ex fd server_addr);;
    let remote_peer := as_connected disconnected_peer fd in
    selector_register fd (PeerData remote_peer);;
    app_call (HandlePeerConnected remote_peer)
      (handle_peer_connected remote_peer).

(** [self.managers], as set by [__init__]. *)
Definition managers : list Manager := [NetworkManager; ChainManager].

(** The [for manager in ...] loop of [step_managers]. *)
Fixpoint step_managers_from (ms : list Manager) (current_time : Z) : LP unit :=
  match ms with
  | [] => mret tt
  | manager :: rest =>
      w ← get_world;
      if negb (running w) then mret tt
      else
        app_call (ManagerStep manager current_time)
          (manager_step manager current_time);;
        step_managers_from rest current_time
  end.

Definition step_managers (current_time : Z) : LP unit :=
  step_managers_from managers current_time.

(** The [for key, mask in events] loop of [handle_selector_events]. *)
Fixpoint dispatch_events (events : list (SelectorKey * Z)) : LP unit :=
  match events with
  | [] => mret tt
  | (key, mask) :: rest =>
      w ← get_world;
      if negb (running w) then mret tt
      else
        match data key with
        | LISTENING_SOCKET => handle_incoming_connection (fileobj key)
        | PeerData _ => handle_remote_peer_selector_event key mask
        end;;
        dispatch_events rest
  end.

Definition handle_selector_events : LP unit :=
  w ← get_world;
  events ← os_call (Select 1) (selector_select (selector_map w) 1);
  dispatch_events events.

(** One pass through the body of the [while] loop of [run]. *)
Definition run_iteration : LP unit :=
  w ← get_world;
  let current_time := time_now (env w) in
  step_managers current_time;;
  handle_selector_events.

(** [while self.running: ...]; [None] when the loop is still running after
    [fuel] iterations. *)
Fixpoint run_loop (fuel : nat) (w : World Env)
    : option (outcome unit * World Env * list Event) :=
  if negb (running w) then Some (Returns tt, w, [])
  else
    match fuel with
    | O => None
    | S fuel' =>
        match run_iteration w with
        | (Returns _, w1, t1) =>
            match run_loop fuel' w1 with
            | Some (r, w2, t2) => Some (r, w2, t1 ++ t2)
            | None => None
            end
        | (Raises e, w1, t1) => Some (Raises e, w1, t1)
        end
    end.

(** The loop ends within [n] iterations: the stop flag is found set, or an
    iteration raises. *)
Inductive loop_ends : nat -> World Env -> Prop :=
  | ends_stopped n w :
      running w = false -> loop_ends n w
  | ends_raised n w e :
      running w = true -> result_of (run_iteration w) = Raises e ->
      loop_ends (S n) w
  | ends_later n w :
      running w = true -> result_of (run_iteration w) = Returns tt ->
      loop_ends n (world_of (run_iteration w)) -> loop_ends (S n) w.

(** How the loop ends within [n] iterations: normally when the stop flag is
    found set, or with the exception of the iteration that raises; and the
    world and the events of the iterations made until then. *)
Inductive loop_exit
    : nat -> World Env -> outcome unit -> World Env -> list Event -> Prop :=
  | exit_stopped n w :
      running w = false -> loop_exit n w (Returns tt) w []
  | exit_raised n w e w1 t1 :
      running w = true -> run_iteration w = (Raises e, w1, t1) ->
      loop_exit (S n) w (Raises e) w1 t1
  | exit_later n w w1 t1 r w2 t2 :
      running w = true -> run_iteration w = (Returns tt, w1, t1) ->
      loop_exit n w1 r w2 t2 -> loop_exit (S n) w r w2 (t1 ++ t2).

(** The [except Exception] and [finally] clauses of [run], around what the
    loop did. *)
Definition run_epilogue (loop : LP unit) : LP unit :=
  try_finally
    (try_except loop
       [(except_Exception,
         fun e =>
           logger ERROR "Uncaught exception in LocalPeer.run()" [];;
           logger ERROR "traceback" [exc_msg e])])
    (logger INFO "%15s LocalPeer selector close" [""];;
     selector_close;;
     logger INFO "%15s LocalPeer selector closed" [""]).

Definition run (fuel : nat) (w : World Env)
    : option (outcome unit * World Env * list Event) :=
  let w0 := set_running true w in
  match run_loop fuel w0 with
  | Some done => Some (run_epilogue (fun _ => done) w0)
  | None => None
  end.

Definition stop : LP unit :=
  logger INFO "%15s LocalPeer.stop()" [""];;
  modify_world (set_running false).

(** Every event the method can emit, from any world, satisfies [P]. *)
Definition emits {A} (P : Event -> Prop) (m : LP A) : Prop :=
  ∀ w, Forall P (events_of (m w)).

End LocalPeer.

Abbreviation peer_traffic := (fun ev => is_peer_traffic ev = true).

(** ** A scripted environment

    A small concrete instance of [Externals], used to run the methods. *)
Module Sim.

(** Modelled from the spec: [skepticoin/networking/manager.py] is not among
    the sources.  The Network Manager "maintains the active peer set":
    [active_peers] gains a peer when it is told of a connection and loses it
    when it is told of a disconnection.  The other fields script the
    operating system: the descriptor handed out next, the sockets closed so
    far, what [select] reports next, and whether [recv] fails, a manager
    asks the loop to stop, or the Chain Manager fails. *)
Record SimEnv : Type := mkSim {
  next_fd : Z;
  closed_socks : list Z;
  active_peers : list ConnectedRemotePeer;
  ready : list (SelectorKey * Z);
  recv_fails : bool;
  stop_requested : bool;
  chain_manager_fails : bool
}.

Definition on_env (f : SimEnv -> SimEnv) (w : World SimEnv) : World SimEnv :=
  set_env (f (env w)) w.

Definition fresh_fd (e : SimEnv) : outcome Z * SimEnv :=
  (Returns (next_fd e),
   mkSim (next_fd e + 1) (closed_socks e) (active_peers e) (ready e)
     (recv_fails e) (stop_requested e) (chain_manager_fails e)).

Definition close_fd (fd : Z) (e : SimEnv) : outcome unit * SimEnv :=
  (Returns tt,
   mkSim (next_fd e) (fd :: closed_socks e) (active_peers e) (ready e)
     (recv_fails e) (stop_requested e) (chain_manager_fails e)).

Definition take_ready (e : SimEnv)
    : outcome (list (SelectorKey * Z)) * SimEnv :=
  (Returns (ready e),
   mkSim (next_fd e) (closed_socks e) (active_peers e) []
     (recv_fails e) (stop_requested e) (chain_manager_fails e)).

Definition set_active (l : list ConnectedRemotePeer) (e : SimEnv) : SimEnv :=
  mkSim (next_fd e) (closed_socks e) l (ready e)
    (recv_fails e) (stop_requested e) (chain_manager_fails e).

Definition sim_recv (e : SimEnv) : outcome (list Z) * SimEnv :=
  if recv_fails e then
    (Raises (mkExc ConnectionResetError "Connection reset by peer"), e)
  else (Returns [104; 105], e).

Definition sim_manager_step (m : Manager) (w : World SimEnv)
    : outcome unit * World SimEnv :=
  match m with
  | NetworkManager =>
      if stop_requested (env w) then (Returns tt, set_running false w)
      else (Returns tt, w)
  | ChainManager =>
      if chain_manager_fails (env w) then
        (Raises (mkExc Exception_ "chain manager failure"), w)
      else (Returns tt, w)
  end.

Definition sim_externals (platform : string) : Externals SimEnv := {|
  sys_platform := platform;
  time_now := fun _ => 1615209942;
  sock_closed := fun fd e => bool_decide (fd ∈ closed_socks e);
  socket_new := fresh_fd;
  sock_setblocking := fun _ _ e => (Returns tt, e);
  sock_connect_ex := fun _ _ e => (Returns 115, e);
  sock_accept := fun _ => fresh_fd;
  sock_getpeername := fun fd e => (Returns ("10.0.0.1", fd), e);
  sock_recv := fun _ _ => sim_recv;
  sock_close := close_fd;
  selector_select := fun _ _ => take_ready;
  handle_receive_data := fun _ _ w => (Returns tt, w);
  handle_can_send := fun _ _ w => (Returns tt, w);
  handle_peer_connected := fun remote_peer w =>
    (Returns tt,
     on_env (fun e => set_active (active_peers e ++ [remote_peer]) e) w);
  handle_peer_disconnected := fun remote_peer w =>
    (Returns tt,
     on_env (fun e =>
       set_active
         (List.filter (fun q => negb (bool_decide (q = remote_peer)))
            (active_peers e)) e) w);
  manager_step := fun m _ => sim_manager_step m
|}.

(** A node that listens on descriptor 3 and has no peers. *)
Definition quiet_env : SimEnv := mkSim 4 [] [] [] false false false.

Definition listening_world : World SimEnv :=
  mkWorld true (<[3 := LISTENING_SOCKET]> ∅) quiet_env.

(** [n] connections arriving one after the other on the listening socket. *)
Fixpoint incoming_connections (platform : string) (n : nat)
    (w : World SimEnv) : World SimEnv :=
  match n with
  | O => w
  | S n' =>
      incoming_connections platform n'
        (world_of (handle_incoming_connection (Ext := sim_externals platform) 3 w))
  end.

(** A node whose Network Manager lists a peer that the selector does not
    track. *)
Definition stale_world : World SimEnv :=
  mkWorld true ∅ (mkSim 6 [] [outgoing_peer] [] false false false).

(** A node that tracks descriptors 0 to 63. *)
Definition crowded_map : gmap Z KeyData :=
  list_to_map
    ((fun i => (Z.of_nat i, PeerData (mkConnected "10.0.0.2" (PortInt (Z.of_nat i)) INCOMING false (Z.of_nat i))))
       <$> seq 0 64).

Definition crowded_world : World SimEnv :=
  mkWorld true crowded_map (mkSim 64 [] [] [] false false false).

(** A node with one peer whose connection has been reset. *)
Definition reset_world : World SimEnv :=
  mkWorld true (<[5 := PeerData outgoing_peer]> ∅)
    (mkSim 6 [] [outgoing_peer] [] true false false).

(** A node with one peer, on which a connection and data are pending. *)
Definition busy_world : World SimEnv :=
  mkWorld true (<[5 := PeerData outgoing_peer]> (<[3 := LISTENING_SOCKET]> ∅))
    (mkSim 6 [] [outgoing_peer]
       [(mkKey 3 LISTENING_SOCKET, 1); (mkKey 5 (PeerData outgoing_peer), 1)]
       false false false).

(** A node whose Chain Manager fails, and one that is asked to stop. *)
Definition failing_world : World SimEnv :=
  mkWorld false (<[3 := LISTENING_SOCKET]> ∅)
    (mkSim 4 [] [] [] false false true).

Definition stopping_world : World SimEnv :=
  mkWorld false (<[3 := LISTENING_SOCKET]> ∅)
    (mkSim 4 [] [] [] false true false).

Definition candidate : DisconnectedRemotePeer :=
  mkDisconnected "10.0.0.7" (PortInt 2412) OUTGOING.

End Sim.

End Networking.

(** * Operational read-outs

    [show_network_stats] and [show_stats].  What [print] writes is the list
    of the strings printed, one per call, without the final newline. *)
Module Stats.

Import Networking.

(** The newline character. *)
Definition nl : string := String (Ascii.ascii_of_nat 10) "".

(** [s.rjust(width)], which is how ["%15s"] and ["%2d"] pad. *)
Definition rjust (width : nat) (s : string) : string :=
  String.concat "" (replicate (width - String.length s) " ") +:+ s.

(** A Python [dict] with string keys, in insertion order. *)
Fixpoint dict_lookup {V} (k : string) (d : list (string * V)) : option V :=
  match d with
  | [] => None
  | (k', v) :: rest => if bool_decide (k = k') then Some v else dict_lookup k rest
  end.

(** [d[k] = v]: an existing key keeps its place, a new one goes last. *)
Fixpoint dict_set {V} (k : string) (v : V) (d : list (string * V))
    : list (string * V) :=
  match d with
  | [] => [(k, v)]
  | (k', v') :: rest =>
      if bool_decide (k = k') then (k, v) :: rest
      else (k', v') :: dict_set k v rest
  end.

(** The body of the loop that fills [per_host]. *)
Definition count_peer (per_host : list (string * (Z * Z)))
    (p : ConnectedRemotePeer) : list (string * (Z * Z)) :=
  let per_host :=
    match dict_lookup (host p) per_host with
    | None => dict_set (host p) (0, 0) per_host
    | Some _ => per_host
    end in
  match dict_lookup (host p) per_host with
  | Some (incoming, outgoing) =>
      if bool_decide (direction p = INCOMING)
      then dict_set (host p) (incoming + 1, outgoing) per_host
      else dict_set (host p) (incoming, outgoing + 1) per_host
  | None => per_host
  end.

Definition per_host_counts (active : list ConnectedRemotePeer)
    : list (string * (Z * Z)) :=
  foldl count_peer [] active.

(** [len(set(p.host for p in active))]. *)
Definition unique_hosts (active : list ConnectedRemotePeer) : nat :=
  size (list_to_set (host <$> active) : gset string).

(** [len([p for p in active if p.direction == OUTGOING])]. *)
Definition listening_hosts (active : list ConnectedRemotePeer) : nat :=
  length (List.filter (fun p => bool_decide (direction p = OUTGOING)) active).

Definition detail_line (row : string * (Z * Z)) : string :=
  rjust 15 row.1 +:+ ": " +:+ rjust 2 (pretty row.2.1) +:+ " incoming, "
    +:+ rjust 2 (pretty row.2.2) +:+ " outgoing".

(** [show_network_stats], given what [get_active_peers()] returns. *)
Definition show_network_stats (active : list ConnectedRemotePeer)
    : list string :=
  ["NETWORK";
   "Nr. of connected peers: " +:+ pretty (length active);
   "Nr. of unique hosts   : " +:+ pretty (unique_hosts active);
   "Nr. of listening hosts: " +:+ pretty (listening_hosts active);
   nl +:+ "details:"]
  ++ (detail_line <$> per_host_counts active).

(** The peers of a host, by direction, as the table counts them. *)
Definition incoming_from (h : string) (active : list ConnectedRemotePeer) : Z :=
  Z.of_nat (length (List.filter
    (fun p => bool_decide (host p = h) && bool_decide (direction p = INCOMING))
    active)).

Definition not_incoming_from (h : string) (active : list ConnectedRemotePeer)
    : Z :=
  Z.of_nat (length (List.filter
    (fun p => bool_decide (host p = h)
              && negb (bool_decide (direction p = INCOMING)))
    active)).

(** The sum of both columns of the table. *)
Definition table_total (per_host : list (string * (Z * Z))) : Z :=
  foldr (fun row acc => row.2.1 + row.2.2 + acc) 0 per_host.

Definition outgoing_total (per_host : list (string * (Z * Z))) : Z :=
  foldr (fun row acc => row.2.2 + acc) 0 per_host.

(** Modelled from the spec: [skepticoin/coinstate.py] is not among the
    sources.  The fields of a block that [show_stats] reads, and of the chain
    state, which "exposes canonical head ... and a forks() view of (branch
    head, lowest-common-ancestor) pairs". *)
Record BlockSummary : Type := mkBlockSummary { height : Z; timestamp : Z }.

Record CoinStateView : Type := mkCoinStateView {
  cs_head : BlockSummary;
  cs_forks : list (BlockSummary * BlockSummary)
}.

(** ["%s" % p.port]. *)
Definition str_port (v : PortValue) : string :=
  match v with PortInt n => pretty n | PortStr s => s end.

Section ShowStats.

(** What [str] gives for a direction, the value of [IRRELEVANT] where it
    stands for a port, and [datetime.fromtimestamp(t).isoformat()], which
    depends on the local time zone. *)
Variable str_direction : Direction -> string.
Variable irrelevant_port : PortValue.
Variable isoformat : Z -> string.

(** One pass of the loop over the peers: what is appended to [out]. *)
Definition peer_line (p : ConnectedRemotePeer) : string :=
  "  " +:+ rjust 15 (host p) +:+ ":"
    +:+ (if bool_decide (port p ≠ irrelevant_port) then str_port (port p)
         else "....")
    +:+ " " +:+ str_direction (direction p) +:+ "," +:+ nl.

(** One pass of the loop over the forks, from [out] to the new [out]. *)
Definition fork_text (head_height : Z) (out : string)
    (fork : BlockSummary * BlockSummary) : string :=
  let head := fork.1 in
  let lca := fork.2 in
  if bool_decide (height head < head_height - 10) then out
  else
    let out := out +:+ ("Height = " +:+ pretty (height head) +:+ ", ") in
    let out := out +:+ ("Date/time = " +:+ isoformat (timestamp head) +:+ nl) in
    let out :=
      if bool_decide (height head ≠ height lca)
      then out +:+ ("  diverges for "
                    +:+ pretty (height head - height lca) +:+ " blocks" +:+ nl)
      else out in
    out +:+ nl.

(** The text [show_stats] builds. *)
Definition stats_text (active : list ConnectedRemotePeer)
    (coinstate : CoinStateView) : string :=
  let out :=
    "NETWORK - " +:+ pretty (length active) +:+ " connected peers: " +:+ nl in
  let out := foldl (fun out p => out +:+ peer_line p) out active in
  let out := out +:+ "CHAIN - " in
  foldl (fork_text (height (cs_head coinstate))) out (cs_forks coinstate).

(** [show_stats]: the world is [self.last_stats_output], the events are the
    texts printed. *)
Definition show_stats (active : list ConnectedRemotePeer)
    (coinstate : option CoinStateView) : M string string unit :=
  match coinstate with
  | None => throw (mkExc AssertionError "")
  | Some coinstate =>
      let out := stats_text active coinstate in
      last_stats_output ← get_world;
      if bool_decide (out ≠ last_stats_output) then
        emit out;;
        modify_world (fun _ => out)
      else mret tt
  end.

(** The forks [show_stats] does not skip. *)
Definition recent_forks (coinstate : CoinStateView)
    : list (BlockSummary * BlockSummary) :=
  List.filter
    (fun fork =>
       negb (bool_decide (height fork.1 < height (cs_head coinstate) - 10)))
    (cs_forks coinstate).

End ShowStats.

(** A chain at height 100 with a fork that is 20 blocks behind. *)
Definition sample_coinstate : CoinStateView :=
  mkCoinStateView (mkBlockSummary 100 1615209942)
    [(mkBlockSummary 100 1615209942, mkBlockSummary 100 1615209942);
     (mkBlockSummary 80 1615200000, mkBlockSummary 75 1615190000);
     (mkBlockSummary 95 1615209000, mkBlockSummary 93 1615208000)].

Definition sample_str_direction (d : Direction) : string :=
  match d with
  | INCOMING => "INCOMING" | OUTGOING => "OUTGOING" | IRRELEVANT => "IRRELEVANT"
  end.

(** Three peers on two hosts. *)
Definition sample_peers : list ConnectedRemotePeer :=
  [mkConnected "10.0.0.7" (PortInt 2412) OUTGOING true 5;
   mkConnected "10.0.0.8" (PortInt 40000) INCOMING true 6;
   mkConnected "10.0.0.7" (PortInt 40001) INCOMING false 7].

End Stats.

(** * More scripted environments *)
Module Scenarios.

Import Networking.
Import Sim.

(** The scripted environment with some of its calls replaced. *)
Definition sim_externals_with (platform : string)
    (accept : Z -> SimEnv -> outcome Z * SimEnv)
    (recv : Z -> Z -> SimEnv -> outcome (list Z) * SimEnv)
    (close : Z -> SimEnv -> outcome unit * SimEnv)
    (receive_data :
       ConnectedRemotePeer -> list Z -> World SimEnv ->
       outcome unit * World SimEnv)
    : Externals SimEnv := {|
  sys_platform := platform;
  time_now := time_now (Externals := sim_externals platform);
  sock_closed := sock_closed (Externals := sim_externals platform);
  socket_new := socket_new (Externals := sim_externals platform);
  sock_setblocking := sock_setblocking (Externals := sim_externals platform);
  sock_connect_ex := sock_connect_ex (Externals := sim_externals platform);
  sock_accept := accept;
  sock_getpeername := sock_getpeername (Externals := sim_externals platform);
  sock_recv := recv;
  sock_close := close;
  selector_select := selector_select (Externals := sim_externals platform);
  handle_receive_data := receive_data;
  handle_can_send := handle_can_send (Externals := sim_externals platform);
  handle_peer_connected :=
    handle_peer_connected (Externals := sim_externals platform);
  handle_peer_disconnected :=
    handle_peer_disconnected (Externals := sim_externals platform);
  manager_step := manager_step (Externals := sim_externals platform)
|}.

(** [accept] finds no connection after all. *)
Definition accept_fails (lsock : Z) (e : SimEnv) : outcome Z * SimEnv :=
  (Raises (mkExc BlockingIOError "Resource temporarily unavailable"), e).

(** The remote side has closed the connection: [recv] returns no data. *)
Definition recv_eof (fd bufsize : Z) (e : SimEnv)
    : outcome (list Z) * SimEnv :=
  (Returns [], e).

(** [close] fails. *)
Definition close_fails (fd : Z) (e : SimEnv) : outcome unit * SimEnv :=
  (Raises (mkExc OSError "Bad file descriptor"), e).

(** A session that asks the node to stop when it receives data. *)
Definition receive_stops (remote_peer : ConnectedRemotePeer)
    (recv_data : list Z) (w : World SimEnv) : outcome unit * World SimEnv :=
  (Returns tt, set_running false w).

Definition failing_accept : Externals SimEnv :=
  sim_externals_with "linux" accept_fails (fun _ _ => sim_recv) close_fd
    (fun _ _ w => (Returns tt, w)).

Definition remote_close : Externals SimEnv :=
  sim_externals_with "linux" (fun _ => fresh_fd) recv_eof close_fd
    (fun _ _ w => (Returns tt, w)).

Definition failing_close : Externals SimEnv :=
  sim_externals_with "linux" (fun _ => fresh_fd) (fun _ _ => sim_recv)
    close_fails (fun _ _ w => (Returns tt, w)).

Definition stopping_session : Externals SimEnv :=
  sim_externals_with "linux" (fun _ => fresh_fd) (fun _ _ => sim_recv)
    close_fd receive_stops.

(** A second peer, and a node on which data from both peers is pending. *)
Definition second_peer : ConnectedRemotePeer :=
  mkConnected "10.0.0.8" (PortInt 2412) OUTGOING true 6.

Definition two_peers_world : World SimEnv :=
  mkWorld true
    (<[6 := PeerData second_peer]> (<[5 := PeerData outgoing_peer]> ∅))
    (mkSim 7 [] [outgoing_peer; second_peer]
       [(mkKey 5 (PeerData outgoing_peer), 1);
        (mkKey 6 (PeerData second_peer), 1)]
       false false false).

(** The same node when both connections have been reset. *)
Definition two_resets_world : World SimEnv :=
  mkWorld true
    (<[6 := PeerData second_peer]> (<[5 := PeerData outgoing_peer]> ∅))
    (mkSim 7 [] [outgoing_peer; second_peer]
       [(mkKey 5 (PeerData outgoing_peer), 1);
        (mkKey 6 (PeerData second_peer), 1)]
       true false false).

(** A Network Manager whose step fails. *)
Definition failing_network_manager : Externals SimEnv := {|
  sys_platform := "linux";
  time_now := time_now (Externals := sim_externals "linux");
  sock_closed := sock_closed (Externals := sim_externals "linux");
  socket_new := socket_new (Externals := sim_externals "linux");
  sock_setblocking := sock_setblocking (Externals := sim_externals "linux");
  sock_connect_ex := sock_connect_ex (Externals := sim_externals "linux");
  sock_accept := sock_accept (Externals := sim_externals "linux");
  sock_getpeername := sock_getpeername (Externals := sim_externals "linux");
  sock_recv := sock_recv (Externals := sim_externals "linux");
  sock_close := sock_close (Externals := sim_externals "linux");
  selector_select := selector_select (Externals := sim_externals "linux");
  handle_receive_data :=
    handle_receive_data (Externals := sim_externals "linux");
  handle_can_send := handle_can_send (Externals := sim_externals "linux");
  handle_peer_connected :=
    handle_peer_connected (Externals := sim_externals "linux");
  handle_peer_disconnected :=
    handle_peer_disconnected (Externals := sim_externals "linux");
  manager_step := fun m _ w =>
    match m with
    | NetworkManager =>
        (Raises (mkExc Exception_ "network manager failure"), w)
    | ChainManager => (Returns tt, w)
    end
|}.

(** A running node that a manager is about to stop. *)
Definition stop_requested_world : World SimEnv :=
  mkWorld true (<[3 := LISTENING_SOCKET]> ∅)
    (mkSim 4 [] [] [(mkKey 3 LISTENING_SOCKET, 1)] false true false).

(** A node that is not running yet, on which a connection is pending. *)
Definition pending_connection_world : World SimEnv :=
  mkWorld false (<[3 := LISTENING_SOCKET]> ∅)
    (mkSim 4 [] [] [(mkKey 3 LISTENING_SOCKET, 1)] false false false).

End Scenarios.

(** * More kinds of events *)
Module EventKinds.

Import Networking.

Definition is_select (ev : Event) : bool :=
  match ev with Select _ => true | _ => false end.

Definition is_sock_close (ev : Event) : bool :=
  match ev with SockClose _ => true | _ => false end.

Definition is_peer_connected (ev : Event) : bool :=
  match ev with HandlePeerConnected _ => true | _ => false end.

End EventKinds.

(** * Properties of the consensus helpers *)

Import Consensus.

Lemma get_block_subsidy_div (S h : Z) :
  0 <= h ->
  get_block_subsidy S h = (10 * S) / 2 ^ (h / SUBSIDY_HALVING_INTERVAL).
Proof.
  intros Hh. unfold get_block_subsidy, INITIAL_SUBSIDY.
  apply Z.shiftr_div_pow2.
  apply Z.div_pos; [lia | reflexivity].
Qed.

Lemma get_block_subsidy_mono (S h1 h2 : Z) :
  0 <= S -> 0 <= h1 <= h2 ->
  get_block_subsidy S h2 <= get_block_subsidy S h1.
Proof.
  intros HS Hh. rewrite !get_block_subsidy_div by lia.
  assert (0 <= h1 / SUBSIDY_HALVING_INTERVAL) by (apply Z.div_pos; [lia | reflexivity]).
  assert (h1 / SUBSIDY_HALVING_INTERVAL <= h2 / SUBSIDY_HALVING_INTERVAL)
    by (apply Z.div_le_mono; [reflexivity | lia]).
  apply Z.div_le_compat_l; [lia |].
  split; [apply Z.pow_pos_nonneg; lia | apply Z.pow_le_mono_r; lia].
Qed.

Lemma get_block_subsidy_halves (S h : Z) :
  0 <= h ->
  get_block_subsidy S (h + SUBSIDY_HALVING_INTERVAL) = get_block_subsidy S h / 2.
Proof.
  intros Hh. rewrite !get_block_subsidy_div by (unfold SUBSIDY_HALVING_INTERVAL; lia).
  assert (0 <= h / SUBSIDY_HALVING_INTERVAL) by (apply Z.div_pos; [lia | reflexivity]).
  replace ((h + SUBSIDY_HALVING_INTERVAL) / SUBSIDY_HALVING_INTERVAL)
    with (h / SUBSIDY_HALVING_INTERVAL + 1).
  - rewrite Z.pow_add_r, Z.pow_1_r by lia.
    assert (0 < 2 ^ (h / SUBSIDY_HALVING_INTERVAL)) by (apply Z.pow_pos_nonneg; lia).
    rewrite Z.div_div by lia. reflexivity.
  - replace (h + SUBSIDY_HALVING_INTERVAL) with (h + 1 * SUBSIDY_HALVING_INTERVAL) by lia.
    rewrite Z.div_add; [reflexivity | discriminate].
Qed.

Lemma get_block_subsidy_interval (S h k : Z) :
  0 <= k ->
  k * SUBSIDY_HALVING_INTERVAL <= h < (k + 1) * SUBSIDY_HALVING_INTERVAL ->
  get_block_subsidy S h = (10 * S) / 2 ^ k.
Proof.
  intros Hk Hh.
  assert (0 <= h) by (unfold SUBSIDY_HALVING_INTERVAL in *; lia).
  rewrite get_block_subsidy_div by lia.
  replace (h / SUBSIDY_HALVING_INTERVAL) with k; [reflexivity |].
  apply Z.div_unique with (r := h - k * SUBSIDY_HALVING_INTERVAL);
    unfold SUBSIDY_HALVING_INTERVAL in *; lia.
Qed.

Lemma get_block_subsidy_zero (S h : Z) :
  0 <= 10 * S < 2 ^ 30 -> 31500000 <= h -> get_block_subsidy S h = 0.
Proof.
  intros HS Hh. rewrite get_block_subsidy_div by lia.
  assert (30 <= h / SUBSIDY_HALVING_INTERVAL).
  { change 30 with (31500000 / SUBSIDY_HALVING_INTERVAL).
    apply Z.div_le_mono; [reflexivity | lia]. }
  apply Z.div_small. split; [lia |].
  eapply Z.lt_le_trans; [apply HS |].
  apply Z.pow_le_mono_r; lia.
Qed.

(** C3. Whatever the number of smallest units per coin that makes ten coins
    lie between 2^29 and 2^30 units (100,000,000 does), the subsidy is
    non-increasing in the height, equals ten coins shifted right once per
    completed interval of 1,050,000 blocks (so it is constant inside an
    interval and halves, by integer division, from one interval to the
    next), is zero from height 31,500,000 on, and takes the five values of
    the test. *)
Theorem get_block_subsidy_schedule (S : Z) :
  2 ^ 29 <= 10 * S < 2 ^ 30 ->
  (forall h1 h2, 0 <= h1 <= h2 ->
     get_block_subsidy S h2 <= get_block_subsidy S h1) /\
  (forall h k, 0 <= k -> k * 1050000 <= h < (k + 1) * 1050000 ->
     get_block_subsidy S h = (10 * S) / 2 ^ k) /\
  (forall h, 0 <= h ->
     get_block_subsidy S (h + 1050000) = get_block_subsidy S h / 2) /\
  (forall h, 31500000 <= h -> get_block_subsidy S h = 0) /\
  get_block_subsidy S 0 = 10 * S /\
  get_block_subsidy S 1049999 = 10 * S /\
  get_block_subsidy S 1050000 = 5 * S /\
  get_block_subsidy S 31499999 = 1 /\
  get_block_subsidy S 31500000 = 0.
Proof.
  intros HS.
  assert (H29 : 2 ^ 29 = 536870912) by reflexivity.
  assert (H30 : 2 ^ 30 = 1073741824) by reflexivity.
  split; [intros; apply get_block_subsidy_mono; lia |].
  split; [intros h k Hk Hh; apply get_block_subsidy_interval; assumption |].
  split; [intros; apply get_block_subsidy_halves; lia |].
  split; [intros; apply get_block_subsidy_zero; lia |].
  split; [rewrite (get_block_subsidy_interval S 0 0); unfold SUBSIDY_HALVING_INTERVAL;
          [apply Z.div_1_r | lia | lia] |].
  split; [rewrite (get_block_subsidy_interval S 1049999 0); unfold SUBSIDY_HALVING_INTERVAL;
          [apply Z.div_1_r | lia | lia] |].
  split; [rewrite (get_block_subsidy_interval S 1050000 1); unfold SUBSIDY_HALVING_INTERVAL;
          [replace (10 * S) with (5 * S * 2 ^ 1) by lia; apply Z.div_mul; discriminate
          | lia | lia] |].
  split; [| apply get_block_subsidy_zero; lia].
  rewrite (get_block_subsidy_interval S 31499999 29);
    unfold SUBSIDY_HALVING_INTERVAL; [| lia | lia].
  rewrite H29. symmetry.
  apply Z.div_unique with (r := 10 * S - 536870912); lia.
Qed.

Lemma get_block_subsidy_schedule_witness :
  2 ^ 29 <= 10 * 100000000 < 2 ^ 30 /\
  get_block_subsidy 100000000 0 = 1000000000 /\
  get_block_subsidy 100000000 1050000 = 500000000 /\
  get_block_subsidy 100000000 31499999 = 1.
Proof.
  assert (H : 2 ^ 29 <= 10 * 100000000 < 2 ^ 30) 
    by (split; [apply Z.leb_le | apply Z.ltb_lt]; reflexivity).
  split; [exact H |].
  destruct (get_block_subsidy_schedule 100000000 H)
    as (_ & _ & _ & _ & H0 & _ & H1 & H2 & _).
  split; [exact H0 |]. split; [exact H1 | exact H2].
Defined.

Section NonCoinbaseFacts.

Variable serialize : Transaction -> bytes.
Variable MAX_BLOCK_SIZE : Z.
Variable in_supply_range : Z -> bool.

Local Abbreviation validate :=
  (validate_non_coinbase_transaction_by_itself serialize MAX_BLOCK_SIZE in_supply_range).
Local Abbreviation defect := (has_defect serialize MAX_BLOCK_SIZE in_supply_range).

Lemma has_duplicates_spec (l : list OutputReference) :
  has_duplicates l = true <-> ¬ NoDup l.
Proof.
  induction l as [| r l IH]; simpl.
  - split; [discriminate | intros H; destruct H; constructor].
  - rewrite orb_true_iff, bool_decide_eq_true, IH, NoDup_cons.
    destruct (decide (r ∈ l)) as [Hin | Hin]; [tauto |].
    destruct (decide (NoDup l)); tauto.
Qed.

Lemma exists_null_spec (l : list Input) :
  existsb (fun i => is_null_reference (output_reference i)) l = true <->
  ∃ i, i ∈ l ∧ output_reference i = null_reference.
Proof.
  rewrite existsb_exists. split; intros (i & Hin & Hi); exists i.
  - split; [by apply list_elem_of_In |].
    unfold is_null_reference in Hi. by apply bool_decide_eq_true in Hi.
  - split; [by apply list_elem_of_In |].
    unfold is_null_reference. by apply bool_decide_eq_true.
Qed.

Lemma exists_placeholder_spec (l : list Input) :
  existsb (fun i => is_placeholder (signature i)) l = true <->
  ∃ i, i ∈ l ∧ signature i = SignableEquivalent.
Proof.
  rewrite existsb_exists. split; intros (i & Hin & Hi); exists i.
  - split; [by apply list_elem_of_In |].
    destruct (signature i); simpl in Hi; congruence.
  - split; [by apply list_elem_of_In |]. by rewrite Hi.
Qed.

(** The validator raises exactly when some defect is present, and then with
    the error of a defect that is present. *)
Lemma validate_non_coinbase_spec (tx : Transaction) :
  match validate tx with
  | Raises e => ∃ d, defect d tx ∧ e = defect_error d
  | Returns _ => ∀ d, ¬ defect d tx
  end.
Proof.
  unfold validate_non_coinbase_transaction_by_itself.
  case_bool_decide as H1; [by exists NoInputs |].
  case_bool_decide as H2; [by exists NoOutputs |].
  destruct (Z.ltb_spec MAX_BLOCK_SIZE (Z.of_nat (length (serialize tx)))) as [H3 | H3];
    [by exists TooLarge |].
  destruct (has_duplicates _) eqn:H4;
    [exists DuplicateReference; split; [by apply has_duplicates_spec | done] |].
  destruct (existsb _ _) eqn:H5;
    [exists NullReference; split; [by apply exists_null_spec | done] |].
  destruct (existsb (fun i => is_placeholder _) _) eqn:H6;
    [exists PlaceholderSignature; split; [by apply exists_placeholder_spec | done] |].
  destruct (in_supply_range _) eqn:H7; simpl;
    [| by exists ValueOutOfRange].
  intros [] Hd; simpl in Hd.
  - done.
  - done.
  - lia.
  - apply has_duplicates_spec in Hd. congruence.
  - apply exists_null_spec in Hd. congruence.
  - apply exists_placeholder_spec in Hd. congruence.
  - congruence.
Qed.

(** C4. A transaction with one of the seven defects is rejected: the
    validator raises the error of a defect the transaction has, which is an
    instance of [ValidationError] ([ValidateTransactionError] for all but the
    out-of-range value); when the defect is the only one, the error is its
    own. *)
Theorem validate_non_coinbase_rejects (tx : Transaction) (d : Defect) :
  defect d tx ->
  (∃ d', defect d' tx ∧
     validate tx = Raises (defect_error d') ∧
     is_ValidationError (exc_class (defect_error d')) = true ∧
     (d' ≠ ValueOutOfRange ->
      exc_class (defect_error d') = ValidateTransactionError)) ∧
  ((∀ d', defect d' tx -> d' = d) ->
   validate tx = Raises (defect_error d)).
Proof.
  intros Hd. pose proof (validate_non_coinbase_spec tx) as Hspec.
  destruct (validate tx) as [[] | e]; [by destruct (Hspec d) |].
  destruct Hspec as (d' & Hd' & ->). split.
  - exists d'. repeat split; [done | by destruct d' | by destruct d'].
  - intros Honly. by rewrite (Honly d' Hd').
Qed.

End NonCoinbaseFacts.

Lemma validate_non_coinbase_rejects_witness :
  let tx := mkTransaction [] [mkOutput 30 example_public_key] in
  has_defect example_serialize 1000000 example_in_supply_range NoInputs tx /\
  ∃ d', has_defect example_serialize 1000000 example_in_supply_range d' tx ∧
    validate_non_coinbase_transaction_by_itself
      example_serialize 1000000 example_in_supply_range tx
    = Raises (defect_error d').
Proof.
  intros tx.
  assert (Hd : has_defect example_serialize 1000000 example_in_supply_range
                 NoInputs tx) by reflexivity.
  split; [exact Hd |].
  destruct (validate_non_coinbase_rejects example_serialize 1000000
              example_in_supply_range tx NoInputs Hd)
    as [(d' & Hd' & Hv & _) _].
  exists d'. split; [exact Hd' | exact Hv].
Defined.

(** The remaining tests of the validator, run on the model. *)
Example validate_no_outputs :
  validate_non_coinbase_transaction_by_itself
    example_serialize 1000000 example_in_supply_range
    (mkTransaction [example_input] [])
  = Raises (mkExc ValidateTransactionError "No outputs").
Proof. reflexivity. Qed.

Example validate_max_total_output :
  validate_non_coinbase_transaction_by_itself
    example_serialize 1000000 example_in_supply_range
    (mkTransaction [example_input]
       [mkOutput (21000000 * 100000000) example_public_key])
  = Raises (mkExc ValidationError "value out of range").
Proof. reflexivity. Qed.

Example validate_duplicate_references :
  validate_non_coinbase_transaction_by_itself
    example_serialize 1000000 example_in_supply_range
    (mkTransaction [example_input; example_input]
       [mkOutput 30 example_public_key])
  = Raises (mkExc ValidateTransactionError
              "output_reference referenced more than once").
Proof. reflexivity. Qed.

Example validate_null_reference :
  validate_non_coinbase_transaction_by_itself
    example_serialize 1000000 example_in_supply_range
    (mkTransaction
       [mkInput (mkOutputReference (replicate 32 0) 0)
          (SECP256k1Signature (replicate 64 121))]
       [mkOutput 30 example_public_key])
  = Raises (mkExc ValidateTransactionError
              "null-reference in non-coinbase transaction").
Proof. reflexivity. Qed.

Example validate_placeholder_signature :
  validate_non_coinbase_transaction_by_itself
    example_serialize 1000000 example_in_supply_range
    (mkTransaction
       [mkInput (mkOutputReference (replicate 32 97) 1) SignableEquivalent]
       [mkOutput 30 example_public_key])
  = Raises (mkExc ValidateTransactionError
              "Non-signature Signature class used").
Proof. reflexivity. Qed.

Example validate_well_formed :
  validate_non_coinbase_transaction_by_itself
    example_serialize 1000000 example_in_supply_range
    (mkTransaction [example_input] [mkOutput 30 example_public_key])
  = Returns tt.
Proof. reflexivity. Qed.

(** * Properties of the address book *)

Import Networking.

Lemma peers_db_elem (peers : list ConnectedRemotePeer) (t : PeerTuple) :
  t ∈ peers_db peers <->
  ∃ p, p ∈ peers ∧ direction p = OUTGOING ∧ hello_received p = true ∧
       t = (host p, port p, direction p).
Proof.
  unfold peers_db. rewrite list_elem_of_fmap. split.
  - intros (p & -> & Hp). apply list_elem_of_In, filter_In in Hp.
    destruct Hp as [Hin Hq]. unfold qualifies in Hq.
    apply andb_true_iff in Hq. destruct Hq as [Hd Hh].
    apply bool_decide_eq_true in Hd.
    exists p. by rewrite list_elem_of_In.
  - intros (p & Hin & Hd & Hh & ->). exists p. split; [done |].
    apply list_elem_of_In, filter_In. split; [by apply list_elem_of_In |].
    unfold qualifies. rewrite Hh, andb_true_r. by apply bool_decide_eq_true.
Qed.

Lemma peers_db_nil (peers : list ConnectedRemotePeer) :
  peers_db peers = [] <-> ∀ p, p ∈ peers -> qualifies p = false.
Proof.
  unfold peers_db. split.
  - intros Hnil p Hin. apply fmap_nil_inv in Hnil.
    destruct (qualifies p) eqn:Hq; [| done].
    assert (In p (List.filter qualifies peers))
      by (apply filter_In; split; [by apply list_elem_of_In | done]).
    rewrite Hnil in *. contradiction.
  - intros Hall. induction peers as [| p peers IH]; [done |]. simpl.
    rewrite (Hall p) by apply list_elem_of_here.
    apply IH. intros q Hq. apply Hall. by apply list_elem_of_further.
Qed.

(** C1, as stated, fails: with one qualifying peer and an address book on
    disk, the file is first truncated to zero length, a state that is neither
    the old address book nor the new one. *)
Lemma overwrite_peers_not_atomic :
  peers_db [outgoing_peer] ≠ [] ∧
  ¬ atomic_rewrite "peers.json" old_disk
      (events_of (overwrite_peers [outgoing_peer] old_disk))
      (Json (peers_db [outgoing_peer]) 4).
Proof.
  split; [discriminate |].
  intros Hatomic. apply Forall_cons_1 in Hatomic. destruct Hatomic as [[H | H] _].
  - vm_compute in H. discriminate.
  - vm_compute in H. discriminate.
Qed.

(** The list comprehension, written with the library's filter: the tuples
    of the qualifying peers, in the order of the list, one per peer. *)
Lemma peers_db_filter (peers : list ConnectedRemotePeer) :
  peers_db peers =
    (fun p => (host p, port p, direction p))
      <$> filter (fun p => direction p = OUTGOING ∧ hello_received p = true)
            peers.
Proof.
  unfold peers_db. f_equal.
  induction peers as [| p peers IH]; [done |].
  rewrite filter_cons. simpl. rewrite IH. unfold qualifies.
  destruct (decide (direction p = OUTGOING ∧ hello_received p = true))
    as [[Hd Hh] | Hno].
  - by rewrite Hh, (bool_decide_eq_true_2 _ Hd).
  - destruct (hello_received p); [| by rewrite andb_false_r].
    rewrite andb_true_r. rewrite bool_decide_eq_false_2; [done | tauto].
Qed.

(** C1, amended. The tuples written are those of exactly the outgoing peers
    whose hello has been received, in the order of the list and one per
    peer.  With at least one such peer the file is opened for writing, which
    leaves it empty, and the complete list is then dumped into it:
    afterwards it holds these tuples whatever it held before.  With none,
    [os.remove] is applied to the file. *)
Theorem overwrite_peers_rewrites_in_full
    (peers : list ConnectedRemotePeer) (fs : gmap string FileData) :
  let db := peers_db peers in
  db = (fun p => (host p, port p, direction p))
         <$> filter (fun p => direction p = OUTGOING ∧ hello_received p = true)
               peers ∧
  (∀ t, t ∈ db <->
     ∃ p, p ∈ peers ∧ direction p = OUTGOING ∧ hello_received p = true ∧
          t = (host p, port p, direction p)) ∧
  overwrite_peers peers fs =
    match db with
    | _ :: _ =>
        (Returns tt, <["peers.json" := Json db 4]> fs,
         [<["peers.json" := Binary []]> fs; <["peers.json" := Json db 4]> fs])
    | [] => os_remove "peers.json" fs
    end ∧
  world_of (overwrite_peers peers fs) !! "peers.json" =
    match db with _ :: _ => Some (Json db 4) | [] => None end.
Proof.
  intros db. split; [apply peers_db_filter |].
  split; [apply peers_db_elem |].
  unfold overwrite_peers. fold db. destruct db as [| t db'].
  - split; [done |]. unfold os_remove, world_of.
    destruct (fs !! "peers.json") eqn:Hf; simpl; [apply lookup_delete_eq | done].
  - split.
    + unfold mbind, M_bind, open_w, json_dump. simpl.
      by rewrite insert_insert_eq.
    + unfold mbind, M_bind, open_w, json_dump, world_of. simpl.
      apply lookup_insert_eq.
Qed.

(** C8. When no peer is both outgoing and past its handshake,
    [overwrite_peers] is [os.remove] on the address book, and on a disk
    without that file it raises [FileNotFoundError] and changes nothing. *)
Theorem overwrite_peers_missing_file
    (peers : list ConnectedRemotePeer) (fs : gmap string FileData) :
  (∀ p, p ∈ peers -> ¬ (direction p = OUTGOING ∧ hello_received p = true)) ->
  fs !! "peers.json" = None ->
  overwrite_peers peers = os_remove "peers.json" ∧
  overwrite_peers peers fs =
    (Raises (mkExc FileNotFoundError "peers.json"), fs, []).
Proof.
  intros Hnone Hmissing.
  assert (Hdb : peers_db peers = []).
  { apply peers_db_nil. intros p Hin. specialize (Hnone p Hin).
    unfold qualifies. destruct (hello_received p); [| apply andb_false_r].
    rewrite andb_true_r. apply bool_decide_eq_false. tauto. }
  unfold overwrite_peers. rewrite Hdb. split; [done |].
  unfold os_remove. by rewrite Hmissing.
Qed.

Lemma overwrite_peers_missing_file_witness :
  overwrite_peers [incoming_peer] (∅ : gmap string FileData) =
    (Raises (mkExc FileNotFoundError "peers.json"), ∅, []).
Proof.
  apply (overwrite_peers_missing_file [incoming_peer] ∅).
  - intros p Hin [Hd _]. apply list_elem_of_singleton in Hin. subst p.
    discriminate Hd.
  - reflexivity.
Defined.

(** * Properties of LocalPeer *)

(** The caps: 512 on linux, 64 on win32, 64 on any other platform. *)
Lemma max_selector_size_by_platform (platform : string) :
  dict_get MAX_SELECTOR_SIZE_BY_PLATFORM platform 64 =
    if bool_decide (platform = "win32") then 64
    else if bool_decide (platform = "linux") then 512 else 64.
Proof.
  unfold dict_get, MAX_SELECTOR_SIZE_BY_PLATFORM.
  case_bool_decide as Hw; [subst; by rewrite lookup_insert_eq |].
  rewrite lookup_insert_ne by done.
  case_bool_decide as Hl; [subst; by rewrite lookup_insert_eq |].
  by rewrite lookup_insert_ne, lookup_empty.
Qed.

Section LocalPeerFacts.

Context {Env : Type} `{Ext : Externals Env}.

Local Abbreviation LP := (M (World Env) Event).

(** Unfolds the combinators so that a method becomes a term to compute with. *)
Ltac lp_unfold :=
  unfold logger, emit, os_call, app_call, get_world, modify_world, throw,
    try_except, try_finally, mbind, M_bind, mret, M_ret,
    result_of, world_of, events_of in *.

Lemma disconnect_returns (p : ConnectedRemotePeer) (reason : string)
    (w : World Env) :
  result_of (disconnect p reason w) = Returns tt.
Proof.
  unfold disconnect, selector_unregister. lp_unfold. simpl.
  destruct (selector_map w !! sock p); simpl.
  - destruct (sock_close _ _) as [[[] | e1] e']; simpl; [| done].
    destruct (handle_peer_disconnected _ _) as [[[] | e2] w']; done.
  - destruct (sock_closed _ _); done.
Qed.

Lemma disconnect_call_order (p : ConnectedRemotePeer) (reason : string)
    (w : World Env) :
  calls_of (events_of (disconnect p reason w)) `prefix_of`
    [Unregister (sock p); SockClose (sock p); HandlePeerDisconnected p].
Proof.
  unfold disconnect, selector_unregister. lp_unfold. simpl.
  destruct (selector_map w !! sock p); simpl.
  - destruct (sock_close _ _) as [[[] | e1] e']; simpl.
    + destruct (handle_peer_disconnected _ _) as [[[] | e2] w']; simpl;
        by eexists.
    + by eexists.
  - destruct (sock_closed _ _); simpl; by eexists.
Qed.

(** C9. [disconnect] never raises, and the calls it makes are, in this
    order, unregister, close, notify, stopping at the first that raises.  So
    when [selector.unregister] raises, the socket is not closed, the Network
    Manager is not notified, and the world, with whatever view the Network
    Manager gives of its active peers, is as before: only two log records and
    the failed call took place. *)
Theorem disconnect_unregister_failure (p : ConnectedRemotePeer)
    (reason : string) (w : World Env) (e : PyExc) :
  result_of (selector_unregister (sock p) w) = Raises e ->
  disconnect p reason w =
    (Returns tt, w,
     [Log INFO "%15s LocalPeer.disconnect(%s)" [host p; reason];
      Unregister (sock p);
      Log INFO "%15s Error while disconnecting %s" [""; exc_msg e]]) ∧
  (SockClose (sock p) ∉ events_of (disconnect p reason w)) ∧
  (HandlePeerDisconnected p ∉ events_of (disconnect p reason w)) ∧
  (∀ (A : Type) (get_active_peers : World Env -> A),
     get_active_peers (world_of (disconnect p reason w)) = get_active_peers w) ∧
  (∀ w', result_of (disconnect p reason w') = Returns tt ∧
         calls_of (events_of (disconnect p reason w')) `prefix_of`
           [Unregister (sock p); SockClose (sock p); HandlePeerDisconnected p]).
Proof.
  intros Hfail.
  assert (Heq : disconnect p reason w =
    (Returns tt, w,
     [Log INFO "%15s LocalPeer.disconnect(%s)" [host p; reason];
      Unregister (sock p);
      Log INFO "%15s Error while disconnecting %s" [""; exc_msg e]])).
  { revert Hfail. unfold disconnect, selector_unregister. lp_unfold. simpl.
    destruct (selector_map w !! sock p); simpl; [discriminate |].
    destruct (sock_closed _ _); simpl; intros [= <-]; reflexivity. }
  split; [exact Heq |]. rewrite Heq. unfold events_of, world_of. simpl.
  split; [| split; [| split]].
  - rewrite !elem_of_cons, elem_of_nil. intros [|[|[|]]]; congruence.
  - rewrite !elem_of_cons, elem_of_nil. intros [|[|[|]]]; congruence.
  - reflexivity.
  - intros w'. split; [apply disconnect_returns | apply disconnect_call_order].
Qed.

(** C6. With at least as many registered descriptors as the cap of the
    platform, [start_outgoing_connection] writes its log record and returns:
    the world is unchanged, so no descriptor is registered and none is
    dropped, and no socket is created and nobody is notified. *)
Theorem start_outgoing_connection_refused
    (disconnected_peer : DisconnectedRemotePeer) (w : World Env) :
  dict_get MAX_SELECTOR_SIZE_BY_PLATFORM sys_platform 64
    ≤ Z.of_nat (size (selector_map w)) ->
  start_outgoing_connection disconnected_peer w =
    (Returns tt, w,
     [Log INFO "%15s LocalPeer.start_outgoing_connection()"
        [d_host disconnected_peer]]) ∧
  calls_of (events_of (start_outgoing_connection disconnected_peer w)) = [] ∧
  dict_get MAX_SELECTOR_SIZE_BY_PLATFORM sys_platform 64 =
    (if bool_decide (sys_platform = "win32") then 64
     else if bool_decide (sys_platform = "linux") then 512 else 64).
Proof.
  intros Hfull.
  assert (Heq : start_outgoing_connection disconnected_peer w =
    (Returns tt, w,
     [Log INFO "%15s LocalPeer.start_outgoing_connection()"
        [d_host disconnected_peer]])).
  { unfold start_outgoing_connection. lp_unfold. simpl.
    rewrite bool_decide_eq_true_2 by exact Hfull. reflexivity. }
  split; [exact Heq |]. split; [by rewrite Heq |].
  apply max_selector_size_by_platform.
Qed.


(** ** Exceptions at the peer boundary *)

Lemma logger_then {A} (level : LogLevel) (fmt : string) (args : list string)
    (m : LP A) (w : World Env) :
  (logger level fmt args;; m) w =
    (result_of (m w), world_of (m w), Log level fmt args :: events_of (m w)).
Proof. lp_unfold. simpl. by destruct (m w) as [[r w'] t]. Qed.

Lemma on_OSError_disconnects (p : ConnectedRemotePeer) (e : PyExc)
    (w : World Env) :
  on_OSError p e w =
    (Returns tt, world_of (disconnect p "OS error" w),
     Log INFO "%15s Disconnecting remote peer %s" [host p; exc_msg e]
       :: events_of (disconnect p "OS error" w)).
Proof.
  unfold on_OSError. rewrite logger_then. by rewrite disconnect_returns.
Qed.

Lemma on_Exception_disconnects (p : ConnectedRemotePeer) (e : PyExc)
    (w : World Env) :
  ∃ logs, Forall (fun ev => is_log ev = true) logs ∧
    on_Exception p e w =
      (Returns tt, world_of (disconnect p "Exception" w),
       logs ++ events_of (disconnect p "Exception" w)).
Proof.
  unfold on_Exception. rewrite logger_then.
  destruct (negb (str_contains _ _)).
  - exists [Log INFO "%15s Disconnecting remote peer %s" [host p; exc_msg e];
            Log WARNING "traceback" [exc_msg e]].
    split; [by repeat constructor |].
    rewrite logger_then, disconnect_returns. reflexivity.
  - exists [Log INFO "%15s Disconnecting remote peer %s" [host p; exc_msg e]].
    split; [by repeat constructor |].
    pose proof (disconnect_returns p "Exception" w) as Hr.
    lp_unfold. simpl. destruct (disconnect p "Exception" w) as [[r w'] t].
    simpl in *. by subst r.
Qed.

(** What [disconnect] does, call by call. *)
Lemma disconnect_steps (p : ConnectedRemotePeer) (reason : string)
    (w : World Env) :
  let started :=
    [Log INFO "%15s LocalPeer.disconnect(%s)" [host p; reason];
     Unregister (sock p)] in
  let failed (msg : string) :=
    Log INFO "%15s Error while disconnecting %s" [""; msg] in
  let unregistered e' :=
    mkWorld (running w) (delete (sock p) (selector_map w)) e' in
  disconnect p reason w =
    match selector_map w !! sock p with
    | None =>
        (Returns tt, w,
         started ++ [failed (if sock_closed (sock p) (env w)
                             then "Invalid file descriptor: -1"
                             else "not registered")])
    | Some _ =>
        match sock_close (sock p) (env w) with
        | (Raises ec, e1) =>
            (Returns tt, unregistered e1,
             started ++ [SockClose (sock p); failed (exc_msg ec)])
        | (Returns _, e1) =>
            match handle_peer_disconnected p (unregistered e1) with
            | (Returns _, w') =>
                (Returns tt, w',
                 started ++ [SockClose (sock p); HandlePeerDisconnected p])
            | (Raises en, w') =>
                (Returns tt, w',
                 started ++ [SockClose (sock p); HandlePeerDisconnected p;
                             failed (exc_msg en)])
            end
        end
    end.
Proof.
  intros started failed unregistered.
  unfold disconnect, selector_unregister. lp_unfold.
  destruct w as [run map e]. simpl in *.
  destruct (map !! sock p); simpl.
  - destruct (sock_close (sock p) e) as [[[] | ec] e1]; simpl; [| done].
    unfold set_selector_map, set_env. simpl. fold (unregistered e1).
    by destruct (handle_peer_disconnected p (unregistered e1))
      as [[[] | en] w'].
  - by destruct (sock_closed (sock p) e).
Qed.

(** C2. On a key that carries a peer, [handle_remote_peer_selector_event]
    always returns.  When the body of its [try] statement raises, an
    [OSError] or any other exception, what follows is the log record of the
    exception (and a warning for other exceptions than the invalid
    descriptor) and then [disconnect] for that very peer, from the world the
    exception left: its socket is unregistered; if that succeeds the socket is
    closed; if that succeeds the Network Manager is told that this peer is
    disconnected; a failure of one of the three stops the disconnection and
    is logged, not raised.  No call is made for any other peer. *)
Theorem peer_event_exceptions_disconnect (key : SelectorKey) (mask : Z)
    (w : World Env) (p : ConnectedRemotePeer) :
  data key = PeerData p ->
  result_of (handle_remote_peer_selector_event key mask w) = Returns tt ∧
  match peer_event_body p (fileobj key) mask w with
  | (Returns _, w1, t1) =>
      handle_remote_peer_selector_event key mask w = (Returns tt, w1, t1)
  | (Raises e, w1, t1) =>
      let reason :=
        if is_OSError (exc_class e) then "OS error" else "Exception" in
      let logs :=
        Log INFO "%15s Disconnecting remote peer %s" [host p; exc_msg e]
        :: (if is_OSError (exc_class e) then []
            else if negb (str_contains "ValueError: Invalid file descriptor: "
                            (exc_msg e))
                 then [Log WARNING "traceback" [exc_msg e]] else []) in
      let started :=
        [Log INFO "%15s LocalPeer.disconnect(%s)" [host p; reason];
         Unregister (sock p)] in
      let failed (msg : string) :=
        Log INFO "%15s Error while disconnecting %s" [""; msg] in
      let unregistered e' :=
        mkWorld (running w1) (delete (sock p) (selector_map w1)) e' in
      handle_remote_peer_selector_event key mask w =
        match selector_map w1 !! sock p with
        | None =>
            (Returns tt, w1,
             t1 ++ logs ++ started
                ++ [failed (if sock_closed (sock p) (env w1)
                            then "Invalid file descriptor: -1"
                            else "not registered")])
        | Some _ =>
            match sock_close (sock p) (env w1) with
            | (Raises ec, e1) =>
                (Returns tt, unregistered e1,
                 t1 ++ logs ++ started
                    ++ [SockClose (sock p); failed (exc_msg ec)])
            | (Returns _, e1) =>
                match handle_peer_disconnected p (unregistered e1) with
                | (Returns _, w') =>
                    (Returns tt, w',
                     t1 ++ logs ++ started
                        ++ [SockClose (sock p); HandlePeerDisconnected p])
                | (Raises en, w') =>
                    (Returns tt, w',
                     t1 ++ logs ++ started
                        ++ [SockClose (sock p); HandlePeerDisconnected p;
                            failed (exc_msg en)])
                end
            end
        end ∧
      handle_remote_peer_selector_event key mask w =
        (Returns tt, world_of (disconnect p reason w1),
         t1 ++ logs ++ events_of (disconnect p reason w1))
  end.
Proof.
  intros Hdata. unfold handle_remote_peer_selector_event. rewrite Hdata.
  unfold try_except.
  destruct (peer_event_body p (fileobj key) mask w) as [[[[] | e] w1] t1];
    [done |].
  cbv zeta. cbn [find_handler]. unfold except_OSError, except_Exception.
  assert (Hcall : ∀ reason logs,
    (Returns tt : outcome unit, world_of (disconnect p reason w1),
     t1 ++ logs ++ events_of (disconnect p reason w1)) =
    match selector_map w1 !! sock p with
    | None =>
        (Returns tt, w1,
         t1 ++ logs
            ++ [Log INFO "%15s LocalPeer.disconnect(%s)" [host p; reason];
                Unregister (sock p)]
            ++ [Log INFO "%15s Error while disconnecting %s"
                  [""; if sock_closed (sock p) (env w1)
                       then "Invalid file descriptor: -1"
                       else "not registered"]])
    | Some _ =>
        match sock_close (sock p) (env w1) with
        | (Raises ec, e1) =>
            (Returns tt,
             mkWorld (running w1) (delete (sock p) (selector_map w1)) e1,
             t1 ++ logs
                ++ [Log INFO "%15s LocalPeer.disconnect(%s)" [host p; reason];
                    Unregister (sock p)]
                ++ [SockClose (sock p);
                    Log INFO "%15s Error while disconnecting %s"
                      [""; exc_msg ec]])
        | (Returns _, e1) =>
            match handle_peer_disconnected p
                    (mkWorld (running w1) (delete (sock p) (selector_map w1)) e1)
            with
            | (Returns _, w') =>
                (Returns tt, w',
                 t1 ++ logs
                    ++ [Log INFO "%15s LocalPeer.disconnect(%s)"
                          [host p; reason];
                        Unregister (sock p)]
                    ++ [SockClose (sock p); HandlePeerDisconnected p])
            | (Raises en, w') =>
                (Returns tt, w',
                 t1 ++ logs
                    ++ [Log INFO "%15s LocalPeer.disconnect(%s)"
                          [host p; reason];
                        Unregister (sock p)]
                    ++ [SockClose (sock p); HandlePeerDisconnected p;
                        Log INFO "%15s Error while disconnecting %s"
                          [""; exc_msg en]])
            end
        end
    end).
  { intros reason logs. rewrite (disconnect_steps p reason w1). cbv zeta.
    unfold world_of, events_of.
    destruct (selector_map w1 !! sock p); [| done].
    destruct (sock_close (sock p) (env w1)) as [[[] | ec] e1]; [| done].
    by destruct (handle_peer_disconnected p _) as [[[] | en] w']. }
  destruct (is_OSError (exc_class e)).
  - rewrite on_OSError_disconnects. split; [done |]. cbn [fst snd].
    unfold world_of at 1, events_of at 1. cbn [fst snd].
    rewrite <- Hcall. split; reflexivity.
  - assert (Hhandler : on_Exception p e w1 =
      (Returns tt, world_of (disconnect p "Exception" w1),
       (Log INFO "%15s Disconnecting remote peer %s" [host p; exc_msg e]
        :: (if negb (str_contains "ValueError: Invalid file descriptor: "
                       (exc_msg e))
            then [Log WARNING "traceback" [exc_msg e]] else []))
       ++ events_of (disconnect p "Exception" w1))).
    { unfold on_Exception. rewrite logger_then.
      pose proof (disconnect_returns p "Exception" w1) as Hr.
      destruct (negb (str_contains _ _)).
      - rewrite logger_then, Hr. reflexivity.
      - lp_unfold. simpl. destruct (disconnect p "Exception" w1) as [[r w'] t].
        simpl in *. by subst r. }
    rewrite Hhandler. split; [done |]. cbn [fst snd].
    rewrite <- Hcall. split; reflexivity.
Qed.

(** ** What the methods emit *)

Lemma emits_ret {A} P (a : A) : emits P (mret a : LP A).
Proof. intros w. constructor. Qed.

Lemma emits_bind {A B} P (m : LP A) (f : A -> LP B) :
  emits P m -> (∀ a, emits P (f a)) -> emits P (m ≫= f).
Proof.
  intros Hm Hf w. specialize (Hm w). lp_unfold.
  destruct (m w) as [[[a | e] w1] t1]; simpl in *; [| done].
  specialize (Hf a w1). destruct (f a w1) as [[r w2] t2]; simpl in *.
  by apply Forall_app.
Qed.

Lemma emits_throw {A} P (e : PyExc) : emits P (throw e : LP A).
Proof. intros w. constructor. Qed.

Lemma emits_get_world P : emits P (get_world : LP (World Env)).
Proof. intros w. constructor. Qed.

Lemma emits_logger (P : Event -> Prop) level fmt args :
  P (Log level fmt args) -> emits P (logger level fmt args : LP unit).
Proof. intros H w. by repeat constructor. Qed.

Lemma emits_os_call {A} (P : Event -> Prop) ev (f : Env -> outcome A * Env) :
  P ev -> emits P (os_call ev f).
Proof.
  intros H w. unfold os_call, events_of. destruct (f (env w)); simpl.
  by repeat constructor.
Qed.

Lemma emits_app_call {A} (P : Event -> Prop) ev
    (f : World Env -> outcome A * World Env) :
  P ev -> emits P (app_call ev f).
Proof.
  intros H w. unfold app_call, events_of. destruct (f w); simpl.
  by repeat constructor.
Qed.

Lemma emits_try_except {A} P (body : LP A) clauses :
  emits P body ->
  Forall (fun c => ∀ e, emits P (c.2 e)) clauses ->
  emits P (try_except body clauses).
Proof.
  intros Hb Hc w. specialize (Hb w). unfold try_except, events_of in *.
  destruct (body w) as [[[a | e] w1] t1]; simpl in *; [done |].
  destruct (find_handler clauses e) as [h |] eqn:Hfind; [| done].
  assert (Hh : ∀ e', emits P (h e')).
  { clear -Hc Hfind. induction Hc as [| [test h'] rest Hhead _ IH];
      simpl in Hfind; [discriminate |].
    destruct (test e); [by injection Hfind as <- | by apply IH]. }
  specialize (Hh e w1). unfold events_of in Hh.
  destruct (h e w1) as [[r w2] t2]; simpl in *. by apply Forall_app.
Qed.

Lemma emits_selector_register (P : Event -> Prop) fd d :
  P (Register fd d) -> emits P (selector_register fd d).
Proof.
  intros H w. unfold selector_register, events_of.
  destruct (selector_map w !! fd); [by repeat constructor |].
  destruct (sock_closed _ _); by repeat constructor.
Qed.

Lemma emits_selector_unregister (P : Event -> Prop) fd :
  P (Unregister fd) -> emits P (selector_unregister fd).
Proof.
  intros H w. unfold selector_unregister, events_of.
  destruct (selector_map w !! fd); [by repeat constructor |].
  destruct (sock_closed _ _); by repeat constructor.
Qed.

(** Closes goals of the form [emits P m] when [P] holds, by computation, of
    every event [m] can emit. *)
Ltac emits_auto :=
  repeat first
    [ apply emits_ret
    | apply emits_throw
    | apply emits_get_world
    | apply emits_logger; reflexivity
    | apply emits_os_call; reflexivity
    | apply emits_app_call; reflexivity
    | apply emits_selector_register; reflexivity
    | apply emits_selector_unregister; reflexivity
    | apply emits_bind; [| intros ?]
    | apply emits_try_except; [| repeat constructor; intros ?]
    | match goal with
      | |- emits _ (if ?b then _ else _) => destruct b
      | |- emits _ (match ?x with _ => _ end) => destruct x
      end ].

Lemma disconnect_traffic p reason : emits peer_traffic (disconnect p reason).
Proof. unfold disconnect. emits_auto. Qed.

Lemma handle_incoming_connection_traffic lsock :
  emits peer_traffic (handle_incoming_connection lsock).
Proof. unfold handle_incoming_connection. emits_auto. Qed.

Lemma handle_remote_peer_selector_event_traffic key mask :
  emits peer_traffic (handle_remote_peer_selector_event key mask).
Proof.
  unfold handle_remote_peer_selector_event, peer_event_body, on_OSError,
    on_Exception.
  emits_auto; apply disconnect_traffic.
Qed.

Lemma dispatch_events_traffic events :
  emits peer_traffic (dispatch_events events).
Proof.
  induction events as [| [key mask] rest IH]; simpl; [apply emits_ret |].
  apply emits_bind; [apply emits_get_world | intros w].
  destruct (negb (running w)); [apply emits_ret |].
  apply emits_bind; [| intros _; exact IH].
  destruct (data key);
    [apply handle_incoming_connection_traffic
    | apply handle_remote_peer_selector_event_traffic].
Qed.

Lemma handle_selector_events_traffic :
  emits peer_traffic handle_selector_events.
Proof.
  unfold handle_selector_events.
  apply emits_bind; [apply emits_get_world | intros w].
  apply emits_bind; [by apply emits_os_call | intros events].
  apply dispatch_events_traffic.
Qed.


(** ** One iteration of the loop *)

Lemma dispatch_events_stopped events (w : World Env) :
  running w = false -> dispatch_events events w = (Returns tt, w, []).
Proof.
  intros Hstop. destruct events as [| [key mask] rest]; [done |].
  simpl. lp_unfold. simpl. by rewrite Hstop.
Qed.

Lemma handle_selector_events_stopped (w : World Env) :
  running w = false -> events_of (handle_selector_events w) = [Select 1].
Proof.
  intros Hstop. unfold handle_selector_events, os_call, get_world.
  unfold mbind, M_bind, events_of. simpl.
  destruct (selector_select _ _ _) as [[events | e] e']; simpl; [| done].
  by rewrite dispatch_events_stopped.
Qed.

Lemma run_iteration_unfold (w : World Env) :
  running w = true ->
  let t := time_now (env w) in
  run_iteration w =
    match manager_step NetworkManager t w with
    | (Raises e, w1) => (Raises e, w1, [ManagerStep NetworkManager t])
    | (Returns _, w1) =>
        if running w1 then
          match manager_step ChainManager t w1 with
          | (Raises e, w2) =>
              (Raises e, w2,
               [ManagerStep NetworkManager t; ManagerStep ChainManager t])
          | (Returns _, w2) =>
              (result_of (handle_selector_events w2),
               world_of (handle_selector_events w2),
               ManagerStep NetworkManager t :: ManagerStep ChainManager t
                 :: events_of (handle_selector_events w2))
          end
        else
          (result_of (handle_selector_events w1),
           world_of (handle_selector_events w1),
           ManagerStep NetworkManager t :: events_of (handle_selector_events w1))
    end.
Proof.
  intros Hrun t. unfold run_iteration, step_managers, managers.
  cbn [step_managers_from]. unfold app_call, get_world.
  unfold mbind, M_bind, mret, M_ret, result_of, world_of, events_of.
  cbn beta iota. rewrite Hrun. cbn [negb]. fold t.
  destruct (manager_step NetworkManager t w) as [[[] | e] w1]; [| done].
  cbn beta iota. destruct (running w1); cbn [negb].
  - destruct (manager_step ChainManager t w1) as [[[] | e] w2]; [| done].
    cbn beta iota. by destruct (handle_selector_events w2) as [[r w3] t3].
  - cbn beta iota. by destruct (handle_selector_events w1) as [[r w3] t3].
Qed.

(** C5, as stated, fails: an iteration that starts with the stop flag unset
    does not call the Chain Manager's step when the Network Manager's step
    raises, the flag still being unset, or when it sets the flag. *)
Lemma chain_manager_step_skipped :
  (running Sim.listening_world = true ∧
   run_iteration (Ext := Scenarios.failing_network_manager) Sim.listening_world
   = (Raises (mkExc Exception_ "network manager failure"), Sim.listening_world,
      [ManagerStep NetworkManager 1615209942]) ∧
   List.filter is_manager_step
     (events_of (run_iteration (Ext := Scenarios.failing_network_manager)
                   Sim.listening_world))
   ≠ [ManagerStep NetworkManager 1615209942;
      ManagerStep ChainManager 1615209942]) ∧
  (running Scenarios.stop_requested_world = true ∧
   events_of (run_iteration (Ext := Sim.sim_externals "linux")
                Scenarios.stop_requested_world)
   = [ManagerStep NetworkManager 1615209942; Select 1] ∧
   List.filter is_manager_step
     (events_of (run_iteration (Ext := Sim.sim_externals "linux")
                   Scenarios.stop_requested_world))
   ≠ [ManagerStep NetworkManager 1615209942;
      ManagerStep ChainManager 1615209942]).
Proof.
  split; (split; [reflexivity |]); (split; [reflexivity | discriminate]).
Qed.

(** C5, amended. An iteration that starts with the stop flag unset calls the
    Network Manager's step first, once.  When that call returns with the flag
    still unset, the Chain Manager's step is called next, with the same time,
    and only when it has returned are the selector's events handled, from the
    world it left; nothing handled there is a manager's step, so each step
    is called exactly once.  When the Network Manager's step raises, the
    iteration ends there; when it sets the flag, the selector is polled but
    the Chain Manager's step is not called and no event is handled.  In every
    case the events of the iteration are the step of the Network Manager
    alone, or followed by an empty poll, or followed by the step of the Chain
    Manager and then by peer traffic. *)
Theorem run_iteration_manager_steps (w : World Env) :
  running w = true ->
  let t := time_now (env w) in
  (∀ w1, manager_step NetworkManager t w = (Returns tt, w1) ->
     running w1 = true ->
     match manager_step ChainManager t w1 with
     | (Returns _, w2) =>
         run_iteration w =
           (result_of (handle_selector_events w2),
            world_of (handle_selector_events w2),
            ManagerStep NetworkManager t :: ManagerStep ChainManager t
              :: events_of (handle_selector_events w2)) ∧
         Forall (fun ev => is_manager_step ev = false)
           (events_of (handle_selector_events w2))
     | (Raises e, w2) =>
         run_iteration w =
           (Raises e, w2,
            [ManagerStep NetworkManager t; ManagerStep ChainManager t])
     end) ∧
  (∃ tail,
     events_of (run_iteration w) = ManagerStep NetworkManager t :: tail ∧
     (tail = [] ∨ tail = [Select 1] ∨
      ∃ tail', tail = ManagerStep ChainManager t :: tail' ∧
               Forall peer_traffic tail')) ∧
  match manager_step NetworkManager t w with
  | (Raises e, w1) =>
      run_iteration w = (Raises e, w1, [ManagerStep NetworkManager t])
  | (Returns _, w1) =>
      if running w1 then
        match manager_step ChainManager t w1 with
        | (Returns _, w2) =>
            events_of (run_iteration w) =
              ManagerStep NetworkManager t :: ManagerStep ChainManager t
                :: events_of (handle_selector_events w2)
        | (Raises e, w2) =>
            run_iteration w =
              (Raises e, w2,
               [ManagerStep NetworkManager t; ManagerStep ChainManager t])
        end
      else
        events_of (run_iteration w) = [ManagerStep NetworkManager t; Select 1]
  end.
Proof.
  intros Hrun t. pose proof (run_iteration_unfold w Hrun) as Hiter.
  fold t in Hiter. cbv zeta in Hiter. split; [| split].
  3: {
    rewrite Hiter.
    destruct (manager_step NetworkManager t w) as [[[] | e] w1]; [| done].
    destruct (running w1) eqn:Hrun1.
    - by destruct (manager_step ChainManager t w1) as [[[] | e] w2].
    - unfold events_of at 1. cbn [snd].
      by rewrite (handle_selector_events_stopped w1 Hrun1). }
  - intros w1 Hnm Hrun1. rewrite Hiter, Hnm, Hrun1.
    destruct (manager_step ChainManager t w1) as [[[] | e] w2]; [| done].
    split; [done |].
    eapply Forall_impl; [apply handle_selector_events_traffic |].
    intros ev Hev. simpl in Hev. unfold is_peer_traffic in Hev.
    apply andb_true_iff in Hev. destruct Hev as [Hev _].
    by apply negb_true_iff in Hev.
  - rewrite Hiter.
    destruct (manager_step NetworkManager t w) as [[[] | e] w1];
      [| exists []; by split; [| left]].
    destruct (running w1) eqn:Hrun1.
    + destruct (manager_step ChainManager t w1) as [[[] | e] w2].
      * eexists. split; [reflexivity |]. right. right. eexists.
        split; [reflexivity |]. apply handle_selector_events_traffic.
      * eexists. split; [reflexivity |]. right. right. eexists.
        split; [reflexivity | constructor].
    + eexists. split; [reflexivity |]. right. left.
      by apply handle_selector_events_stopped.
Qed.


(** ** The loop and its exits *)

Abbreviation not_close := (fun ev => is_selector_close ev = false).

Lemma emits_weaken {A} (P Q : Event -> Prop) (m : LP A) :
  (∀ ev, P ev -> Q ev) -> emits P m -> emits Q m.
Proof. intros HPQ Hm w. eapply Forall_impl; [apply Hm | exact HPQ]. Qed.

Lemma peer_traffic_not_close ev : peer_traffic ev -> not_close ev.
Proof.
  unfold is_peer_traffic. intros H. apply andb_true_iff in H.
  destruct H as [_ H]. by apply negb_true_iff in H.
Qed.

Lemma step_managers_from_not_close ms t :
  emits not_close (step_managers_from ms t).
Proof.
  induction ms as [| m rest IH]; simpl; [apply emits_ret |].
  apply emits_bind; [apply emits_get_world | intros w].
  destruct (negb (running w)); [apply emits_ret |].
  apply emits_bind; [by apply emits_app_call | intros _; exact IH].
Qed.

Lemma run_iteration_not_close : emits not_close run_iteration.
Proof.
  unfold run_iteration.
  apply emits_bind; [apply emits_get_world | intros w].
  apply emits_bind; [apply step_managers_from_not_close | intros _].
  eapply emits_weaken; [apply peer_traffic_not_close |].
  apply handle_selector_events_traffic.
Qed.

Lemma run_loop_not_close fuel (w : World Env) r w' t :
  run_loop fuel w = Some (r, w', t) -> Forall not_close t.
Proof.
  revert w r w' t. induction fuel as [| fuel IH]; intros w r w' t; simpl.
  - destruct (negb (running w)); [| discriminate].
    intros [= <- <- <-]. constructor.
  - destruct (negb (running w)); [intros [= <- <- <-]; constructor |].
    pose proof (run_iteration_not_close w) as Hiter. unfold events_of in Hiter.
    destruct (run_iteration w) as [[[[] | e] w1] t1]; simpl in Hiter.
    + destruct (run_loop fuel w1) as [[[r2 w2] t2] |] eqn:Hrest; [| discriminate].
      intros [= <- <- <-]. apply Forall_app. split; [done |].
      by eapply IH.
    + by intros [= <- <- <-].
Qed.

(** Fuel only bounds the number of iterations: more of it changes nothing. *)
Lemma run_loop_more_fuel fuel fuel' (w : World Env) res :
  (fuel <= fuel')%nat -> run_loop fuel w = Some res ->
  run_loop fuel' w = Some res.
Proof.
  revert fuel' w res. induction fuel as [| fuel IH]; intros fuel' w res Hle; simpl.
  - destruct (negb (running w)) eqn:Hrun; [| discriminate].
    intros <-. destruct fuel'; simpl; by rewrite Hrun.
  - destruct fuel' as [| fuel']; [lia |]. simpl.
    destruct (negb (running w)); [done |].
    destruct (run_iteration w) as [[[[] | e] w1] t1]; [| done].
    destruct (run_loop fuel w1) as [[[r2 w2] t2] |] eqn:Hrest; [| discriminate].
    intros <-. by rewrite (IH fuel' w1 _ ltac:(lia) Hrest).
Qed.

Lemma filter_none {A} (f : A -> bool) (l : list A) :
  Forall (fun x => f x = false) l -> List.filter f l = [].
Proof.
  induction 1 as [| x l Hx _ IH]; simpl; [done |]. by rewrite Hx.
Qed.

Lemma run_loop_ends fuel (w : World Env) :
  loop_ends fuel w -> ∃ res, run_loop fuel w = Some res.
Proof.
  induction 1 as [n w Hstop | n w e Hrun Hraise | n w Hrun Hret _ IH].
  - exists (Returns tt, w, []). destruct n; simpl; by rewrite Hstop.
  - simpl. rewrite Hrun. simpl. unfold result_of in Hraise.
    destruct (run_iteration w) as [[r w1] t1]. simpl in Hraise. subst r.
    by eexists.
  - simpl. rewrite Hrun. simpl. unfold result_of, world_of in *.
    destruct (run_iteration w) as [[r w1] t1]. simpl in *. subst r.
    destruct IH as [[[r2 w2] t2] ->]. by eexists.
Qed.

(** The loop itself writes no error record. *)
Abbreviation no_error_log := (fun ev => is_error_log ev = false).

Lemma run_iteration_no_error_log : emits no_error_log run_iteration.
Proof.
  assert (Hdisconnect : ∀ p reason, emits no_error_log (disconnect p reason))
    by (intros; unfold disconnect; emits_auto).
  assert (Hdispatch : ∀ events, emits no_error_log (dispatch_events events)).
  { induction events as [| [key mask] rest IH]; simpl; [apply emits_ret |].
    apply emits_bind; [apply emits_get_world | intros w].
    destruct (negb (running w)); [apply emits_ret |].
    apply emits_bind; [| intros _; exact IH].
    destruct (data key).
    - unfold handle_incoming_connection. emits_auto.
    - unfold handle_remote_peer_selector_event, peer_event_body, on_OSError,
        on_Exception.
      emits_auto; apply Hdisconnect. }
  assert (Hsteps : ∀ ms t, emits no_error_log (step_managers_from ms t)).
  { induction ms as [| m rest IH]; intros t; simpl; [apply emits_ret |].
    apply emits_bind; [apply emits_get_world | intros w].
    destruct (negb (running w)); [apply emits_ret |].
    apply emits_bind; [by apply emits_app_call | intros _; apply IH]. }
  unfold run_iteration.
  apply emits_bind; [apply emits_get_world | intros w].
  apply emits_bind; [apply Hsteps | intros _].
  unfold handle_selector_events.
  apply emits_bind; [apply emits_get_world | intros w0].
  apply emits_bind; [by apply emits_os_call | intros events].
  apply Hdispatch.
Qed.

Lemma loop_exit_run_loop fuel (w : World Env) r w' t :
  loop_exit fuel w r w' t -> run_loop fuel w = Some (r, w', t).
Proof.
  induction 1 as [n w Hstop | n w e w1 t1 Hrun Hiter
                 | n w w1 t1 r w2 t2 Hrun Hiter _ IH].
  - destruct n; simpl; by rewrite Hstop.
  - simpl. by rewrite Hrun, Hiter.
  - simpl. by rewrite Hrun, Hiter, IH.
Qed.

Lemma loop_ends_exit fuel (w : World Env) :
  loop_ends fuel w -> ∃ r w' t, loop_exit fuel w r w' t.
Proof.
  induction 1 as [n w Hstop | n w e Hrun Hraise | n w Hrun Hret _ IH].
  - exists (Returns tt), w, []. by constructor.
  - unfold result_of in Hraise.
    destruct (run_iteration w) as [[r w1] t1] eqn:Hiter. simpl in Hraise.
    subst r. exists (Raises e), w1, t1. by eapply exit_raised.
  - unfold result_of, world_of in *.
    destruct (run_iteration w) as [[r w1] t1] eqn:Hiter. simpl in *. subst r.
    destruct IH as (r & w2 & t2 & Hexit).
    exists r, w2, (t1 ++ t2). by eapply exit_later.
Qed.

Lemma loop_exit_no_error_log fuel (w : World Env) r w' t :
  loop_exit fuel w r w' t -> Forall no_error_log t.
Proof.
  induction 1 as [n w Hstop | n w e w1 t1 Hrun Hiter
                 | n w w1 t1 r w2 t2 Hrun Hiter _ IH].
  - constructor.
  - pose proof (run_iteration_no_error_log w) as H. by rewrite Hiter in H.
  - apply Forall_app. split; [| done].
    pose proof (run_iteration_no_error_log w) as H. by rewrite Hiter in H.
Qed.

(** C7. When the loop ends, by the stop flag or by an exception, [run]
    returns, and returns normally.  Its events are those of the loop, in
    which the selector is never closed and no error is logged; then, exactly
    when an iteration raised, the two error records of the one handler, with
    the message of that exception; then the closing of the selector between
    its two log records.  So the exception is logged once and the selector
    is closed exactly once, last, on both exits.  More fuel gives the same
    result. *)
Theorem run_closes_selector_once (fuel : nat) (w : World Env) :
  loop_ends fuel (set_running true w) ->
  ∃ res, run fuel w = Some res ∧
  result_of res = Returns tt ∧
  (∃ r w1 loop_events,
     run_loop fuel (set_running true w) = Some (r, w1, loop_events) ∧
     Forall not_close loop_events ∧
     world_of res = set_selector_map ∅ w1 ∧
     events_of res =
       loop_events
       ++ match r with
          | Raises e =>
              [Log ERROR "Uncaught exception in LocalPeer.run()" [];
               Log ERROR "traceback" [exc_msg e]]
          | Returns _ => []
          end
       ++ [Log INFO "%15s LocalPeer selector close" [""];
           SelectorClose;
           Log INFO "%15s LocalPeer selector closed" [""]]) ∧
  length (List.filter is_selector_close (events_of res)) = 1%nat ∧
  (∀ fuel', (fuel <= fuel')%nat -> run fuel' w = Some res) ∧
  (∃ r w1 t, loop_exit fuel (set_running true w) r w1 t) ∧
  (∀ r w1 t, loop_exit fuel (set_running true w) r w1 t ->
     res =
       (Returns tt, set_selector_map ∅ w1,
        t ++ match r with
             | Raises e =>
                 [Log ERROR "Uncaught exception in LocalPeer.run()" [];
                  Log ERROR "traceback" [exc_msg e]]
             | Returns _ => []
             end
          ++ [Log INFO "%15s LocalPeer selector close" [""];
              SelectorClose;
              Log INFO "%15s LocalPeer selector closed" [""]]) ∧
     List.filter is_error_log (events_of res) =
       match r with
       | Raises e =>
           [Log ERROR "Uncaught exception in LocalPeer.run()" [];
            Log ERROR "traceback" [exc_msg e]]
       | Returns _ => []
       end).
Proof.
  intros Hends. pose proof (loop_ends_exit _ _ Hends) as Hexits.
  apply run_loop_ends in Hends.
  destruct Hends as [[[r w1] t1] Hloop].
  unfold run. rewrite Hloop. eexists. split; [reflexivity |].
  pose proof (run_loop_not_close _ _ _ _ _ Hloop) as Hquiet.
  assert (Hshape :
    run_epilogue (fun _ => (r, w1, t1)) (set_running true w) =
      (Returns tt, set_selector_map ∅ w1,
       t1 ++ match r with
             | Raises e =>
                 [Log ERROR "Uncaught exception in LocalPeer.run()" [];
                  Log ERROR "traceback" [exc_msg e]]
             | Returns _ => []
             end
          ++ [Log INFO "%15s LocalPeer selector close" [""];
              SelectorClose;
              Log INFO "%15s LocalPeer selector closed" [""]])).
  { unfold run_epilogue, selector_close. lp_unfold. simpl.
    destruct r as [[] | e]; simpl; by rewrite <- ?app_assoc. }
  rewrite Hshape. unfold result_of, world_of, events_of. simpl.
  split; [done |]. split; [by exists r, w1, t1 |]. split; [| split; [| split]].
  - rewrite !List.filter_app, (filter_none _ _ Hquiet). by destruct r.
  - intros fuel' Hle. by rewrite (run_loop_more_fuel _ _ _ _ Hle Hloop), Hshape.
  - exact Hexits.
  - intros r' w1' t' Hexit.
    pose proof (loop_exit_no_error_log _ _ _ _ _ Hexit) as Hnone.
    apply loop_exit_run_loop in Hexit. rewrite Hloop in Hexit.
    injection Hexit as <- <- <-. split; [done |].
    rewrite !List.filter_app, (filter_none _ _ Hnone). by destruct r.
Qed.


(** ** Incoming connections *)

(** When the connection is accepted and named, its descriptor is registered
    and the Network Manager is told, whatever the size of the map. *)
Lemma handle_incoming_connection_registers (w : World Env) (lsock conn : Z)
    (e1 e2 e3 e4 : Env) (name0 name1 : string * Z) :
  sock_accept lsock (env w) = (Returns conn, e1) ->
  sock_setblocking conn false e1 = (Returns tt, e2) ->
  sock_getpeername conn e2 = (Returns name0, e3) ->
  sock_getpeername conn e3 = (Returns name1, e4) ->
  selector_map w !! conn = None ->
  sock_closed conn e4 = false ->
  let remote_peer :=
    mkConnected name0.1 (PortInt name1.2) INCOMING false conn in
  let registered :=
    mkWorld (running w) (<[conn := PeerData remote_peer]> (selector_map w)) e4 in
  size (selector_map registered) = S (size (selector_map w)) ∧
  handle_incoming_connection lsock w =
    ((handle_peer_connected remote_peer registered).1,
     (handle_peer_connected remote_peer registered).2,
     [Log INFO "%15s LocalPeer.handle_incoming_connection()" [""];
      Accept lsock; SetBlocking conn false; GetPeerName conn; GetPeerName conn;
      Register conn (PeerData remote_peer); HandlePeerConnected remote_peer]).
Proof.
  intros Hacc Hblock Hname0 Hname1 Hfree Hopen remote_peer registered.
  split; [by apply map_size_insert_None |].
  unfold handle_incoming_connection, selector_register. lp_unfold.
  destruct w as [run map e]. simpl in *.
  rewrite Hacc. simpl. rewrite Hblock. simpl. rewrite Hname0. simpl.
  rewrite Hname1. simpl. rewrite Hfree, Hopen. simpl.
  fold remote_peer. unfold set_selector_map. simpl. fold registered.
  by destruct (handle_peer_connected remote_peer registered).
Qed.

End LocalPeerFacts.

Lemma disconnect_unregister_failure_witness :
  disconnect (Ext := Sim.sim_externals "linux") outgoing_peer "OS error"
    Sim.stale_world =
    (Returns tt, Sim.stale_world,
     [Log INFO "%15s LocalPeer.disconnect(%s)" ["10.0.0.7"; "OS error"];
      Unregister 5;
      Log INFO "%15s Error while disconnecting %s" [""; "not registered"]]).
Proof.
  apply (disconnect_unregister_failure (Ext := Sim.sim_externals "linux")
           outgoing_peer "OS error" Sim.stale_world
           (mkExc KeyError "not registered")).
  reflexivity.
Defined.

Lemma start_outgoing_connection_refused_witness :
  calls_of (events_of
    (start_outgoing_connection (Ext := Sim.sim_externals "win32")
       Sim.candidate Sim.crowded_world)) = [].
Proof.
  apply (start_outgoing_connection_refused (Ext := Sim.sim_externals "win32")
           Sim.candidate Sim.crowded_world).
  vm_compute. discriminate.
Defined.

Lemma peer_event_exceptions_disconnect_witness :
  handle_remote_peer_selector_event (Ext := Sim.sim_externals "linux")
    (mkKey 5 (PeerData outgoing_peer)) EVENT_READ Sim.reset_world
  = (Returns tt,
     mkWorld true ∅ (Sim.mkSim 6 [5] [] [] true false false),
     [Recv 5 1024;
      Log INFO "%15s Disconnecting remote peer %s"
        ["10.0.0.7"; "Connection reset by peer"];
      Log INFO "%15s LocalPeer.disconnect(%s)" ["10.0.0.7"; "OS error"];
      Unregister 5; SockClose 5; HandlePeerDisconnected outgoing_peer]).
Proof.
  destruct (peer_event_exceptions_disconnect
              (Ext := Sim.sim_externals "linux")
              (mkKey 5 (PeerData outgoing_peer)) EVENT_READ Sim.reset_world
              outgoing_peer eq_refl) as [_ Hraise].
  assert (Hbody :
    peer_event_body (Ext := Sim.sim_externals "linux") outgoing_peer 5
      EVENT_READ Sim.reset_world
    = (Raises (mkExc ConnectionResetError "Connection reset by peer"),
       Sim.reset_world, [Recv 5 1024])) by reflexivity.
  cbn [fileobj] in Hraise. rewrite Hbody in Hraise.
  destruct Hraise as [Hsteps _]. rewrite Hsteps. reflexivity.
Defined.

(** The same event in full: the reset is logged and the peer is
    unregistered, closed and reported to the Network Manager. *)
Example connection_reset_disconnects_peer :
  handle_remote_peer_selector_event (Ext := Sim.sim_externals "linux")
    (mkKey 5 (PeerData outgoing_peer)) EVENT_READ Sim.reset_world
  = (Returns tt,
     mkWorld true ∅ (Sim.mkSim 6 [5] [] [] true false false),
     [Recv 5 1024;
      Log INFO "%15s Disconnecting remote peer %s"
        ["10.0.0.7"; "Connection reset by peer"];
      Log INFO "%15s LocalPeer.disconnect(%s)" ["10.0.0.7"; "OS error"];
      Unregister 5; SockClose 5; HandlePeerDisconnected outgoing_peer]).
Proof. vm_compute. reflexivity. Qed.

Lemma run_iteration_manager_steps_witness :
  running Sim.busy_world = true ∧
  events_of (run_iteration (Ext := Sim.sim_externals "linux") Sim.busy_world)
  = ManagerStep NetworkManager 1615209942
      :: ManagerStep ChainManager 1615209942
      :: events_of
           (handle_selector_events (Ext := Sim.sim_externals "linux")
              Sim.busy_world).
Proof.
  split; [reflexivity |].
  destruct (run_iteration_manager_steps (Ext := Sim.sim_externals "linux")
              Sim.busy_world eq_refl) as [Hsteps _].
  destruct (Hsteps Sim.busy_world eq_refl eq_refl) as [Hiter _].
  rewrite Hiter. reflexivity.
Defined.

(** An iteration with a pending connection and pending data: the two steps,
    then the poll, then the connection and the data. *)
Example run_iteration_busy :
  events_of (run_iteration (Ext := Sim.sim_externals "linux") Sim.busy_world)
  = [ManagerStep NetworkManager 1615209942;
     ManagerStep ChainManager 1615209942;
     Select 1;
     Log INFO "%15s LocalPeer.handle_incoming_connection()" [""];
     Accept 3; SetBlocking 6 false; GetPeerName 6; GetPeerName 6;
     Register 6 (PeerData (mkConnected "10.0.0.1" (PortInt 6) INCOMING false 6));
     HandlePeerConnected (mkConnected "10.0.0.1" (PortInt 6) INCOMING false 6);
     Recv 5 1024;
     HandleReceiveData outgoing_peer [104; 105]].
Proof. vm_compute. reflexivity. Qed.

Lemma run_closes_selector_once_witness :
  run (Ext := Sim.sim_externals "linux") 1 Sim.failing_world
  = Some (Returns tt,
          mkWorld true ∅ (Sim.mkSim 4 [] [] [] false false true),
          [ManagerStep NetworkManager 1615209942;
           ManagerStep ChainManager 1615209942;
           Log ERROR "Uncaught exception in LocalPeer.run()" [];
           Log ERROR "traceback" ["chain manager failure"];
           Log INFO "%15s LocalPeer selector close" [""];
           SelectorClose;
           Log INFO "%15s LocalPeer selector closed" [""]]).
Proof.
  assert (Hends : loop_ends (Ext := Sim.sim_externals "linux") 1
                    (set_running true Sim.failing_world)).
  { apply (ends_raised (Ext := Sim.sim_externals "linux") 0 _
             (mkExc Exception_ "chain manager failure")); reflexivity. }
  destruct (run_closes_selector_once (Ext := Sim.sim_externals "linux")
              1 Sim.failing_world Hends)
    as (res & Hrun & _ & _ & _ & _ & _ & Htie).
  assert (Hexit : loop_exit (Ext := Sim.sim_externals "linux") 1
                    (set_running true Sim.failing_world)
                    (Raises (mkExc Exception_ "chain manager failure"))
                    (set_running true Sim.failing_world)
                    [ManagerStep NetworkManager 1615209942;
                     ManagerStep ChainManager 1615209942]).
  { apply (exit_raised (Ext := Sim.sim_externals "linux")); reflexivity. }
  destruct (Htie _ _ _ Hexit) as [Hres _]. rewrite Hres in Hrun. exact Hrun.
Defined.

(** The two exits of [run]: a failing manager, and a request to stop. *)
Example run_after_failure :
  run (Ext := Sim.sim_externals "linux") 1 Sim.failing_world
  = Some (Returns tt,
          mkWorld true ∅ (Sim.mkSim 4 [] [] [] false false true),
          [ManagerStep NetworkManager 1615209942;
           ManagerStep ChainManager 1615209942;
           Log ERROR "Uncaught exception in LocalPeer.run()" [];
           Log ERROR "traceback" ["chain manager failure"];
           Log INFO "%15s LocalPeer selector close" [""];
           SelectorClose;
           Log INFO "%15s LocalPeer selector closed" [""]]).
Proof. vm_compute. reflexivity. Qed.

Example run_after_stop :
  run (Ext := Sim.sim_externals "linux") 1 Sim.stopping_world
  = Some (Returns tt,
          mkWorld false ∅ (Sim.mkSim 4 [] [] [] false true false),
          [ManagerStep NetworkManager 1615209942;
           Select 1;
           Log INFO "%15s LocalPeer selector close" [""];
           SelectorClose;
           Log INFO "%15s LocalPeer selector closed" [""]]).
Proof. vm_compute. reflexivity. Qed.

(** ** Incoming connections and the cap *)

Lemma sim_incoming_connection platform (w : World Sim.SimEnv) :
  Sim.closed_socks (env w) = [] ->
  (∀ fd, Sim.next_fd (env w) ≤ fd -> selector_map w !! fd = None) ->
  let res := handle_incoming_connection (Ext := Sim.sim_externals platform) 3 w in
  result_of res = Returns tt ∧
  size (selector_map (world_of res)) = S (size (selector_map w)) ∧
  Sim.closed_socks (env (world_of res)) = [] ∧
  (∀ fd, Sim.next_fd (env (world_of res)) ≤ fd ->
         selector_map (world_of res) !! fd = None).
Proof.
  intros Hclosed Hfresh.
  unfold handle_incoming_connection, selector_register, logger, emit,
    os_call, app_call, mbind, M_bind, result_of, world_of.
  destruct w as [run map e]. simpl in *. rewrite Hclosed. simpl.
  rewrite (Hfresh (Sim.next_fd e)) by lia. simpl.
  split; [done |]. split; [| split; [done |]].
  - apply map_size_insert_None. apply Hfresh. lia.
  - intros fd Hfd. rewrite lookup_insert_ne by lia. apply Hfresh. lia.
Qed.

Lemma sim_incoming_connections_size platform n (w : World Sim.SimEnv) :
  Sim.closed_socks (env w) = [] ->
  (∀ fd, Sim.next_fd (env w) ≤ fd -> selector_map w !! fd = None) ->
  size (selector_map (Sim.incoming_connections platform n w))
  = (n + size (selector_map w))%nat.
Proof.
  revert w. induction n as [| n IH]; intros w Hclosed Hfresh; [done |].
  destruct (sim_incoming_connection platform w Hclosed Hfresh)
    as (_ & Hsize & Hclosed' & Hfresh').
  simpl. rewrite IH by assumption. rewrite Hsize. lia.
Qed.

(** C10. [handle_incoming_connection] compares nothing with the cap: in any
    environment, a connection that is accepted and named is registered and
    reported to the Network Manager whatever the size of the registration
    map.  So on a node that was only listening, [n] incoming connections
    leave [n + 1] tracked descriptors, for every [n], which on every platform
    is more than the cap after enough of them. *)
Theorem incoming_connections_exceed_cap :
  (∀ (Env : Type) (Ext : Externals Env) (w : World Env) (lsock conn : Z)
     (e1 e2 e3 e4 : Env) (name0 name1 : string * Z),
     sock_accept lsock (env w) = (Returns conn, e1) ->
     sock_setblocking conn false e1 = (Returns tt, e2) ->
     sock_getpeername conn e2 = (Returns name0, e3) ->
     sock_getpeername conn e3 = (Returns name1, e4) ->
     selector_map w !! conn = None ->
     sock_closed conn e4 = false ->
     let remote_peer :=
       mkConnected name0.1 (PortInt name1.2) INCOMING false conn in
     let registered :=
       mkWorld (running w)
         (<[conn := PeerData remote_peer]> (selector_map w)) e4 in
     size (selector_map registered) = S (size (selector_map w)) ∧
     handle_incoming_connection lsock w =
       ((handle_peer_connected remote_peer registered).1,
        (handle_peer_connected remote_peer registered).2,
        [Log INFO "%15s LocalPeer.handle_incoming_connection()" [""];
         Accept lsock; SetBlocking conn false;
         GetPeerName conn; GetPeerName conn;
         Register conn (PeerData remote_peer);
         HandlePeerConnected remote_peer])) ∧
  (∀ platform : string,
     (∀ n, size (selector_map
                   (Sim.incoming_connections platform n Sim.listening_world))
           = S n) ∧
     ∃ n, dict_get MAX_SELECTOR_SIZE_BY_PLATFORM platform 64
          < Z.of_nat (size (selector_map
                       (Sim.incoming_connections platform n Sim.listening_world)))).
Proof.
  split; [intros; by eapply handle_incoming_connection_registers |].
  intros platform.
  assert (Hsize : ∀ n,
    size (selector_map (Sim.incoming_connections platform n Sim.listening_world))
    = S n).
  { intros n. rewrite sim_incoming_connections_size.
    - unfold Sim.listening_world. simpl.
      rewrite map_size_insert_None by apply lookup_empty.
      rewrite map_size_empty. lia.
    - reflexivity.
    - intros fd Hfd. unfold Sim.listening_world in *. simpl in *.
      rewrite lookup_insert_ne by lia. apply lookup_empty. }
  split; [exact Hsize |].
  exists 512%nat. rewrite Hsize, max_selector_size_by_platform.
  repeat case_bool_decide; lia.
Qed.

(** On win32 the 64th incoming connection is accepted at the cap, where an
    outgoing one is refused. *)
Example incoming_accepted_at_the_cap :
  let w := Sim.incoming_connections "win32" 63 Sim.listening_world in
  size (selector_map w) = 64%nat ∧
  calls_of (events_of
    (start_outgoing_connection (Ext := Sim.sim_externals "win32")
       Sim.candidate w)) = [] ∧
  size (selector_map
    (world_of (handle_incoming_connection (Ext := Sim.sim_externals "win32") 3 w)))
  = 65%nat.
Proof. vm_compute. done. Qed.

(** * Further properties of the address book *)

(** X1. [overwrite_peers] touches no file but the address book: every other
    name holds, during the call and after it, what it held before. *)
Theorem overwrite_peers_other_files (peers : list ConnectedRemotePeer)
    (fs : gmap string FileData) (name : string) :
  name ≠ "peers.json" ->
  world_of (overwrite_peers peers fs) !! name = fs !! name ∧
  Forall (fun disk : gmap string FileData => disk !! name = fs !! name)
    (events_of (overwrite_peers peers fs)).
Proof.
  intros Hname. unfold overwrite_peers.
  destruct (peers_db peers) as [| t db].
  - unfold os_remove, world_of, events_of.
    destruct (fs !! "peers.json"); simpl.
    + assert (Hdel : delete "peers.json" fs !! name = fs !! name)
        by (by apply lookup_delete_ne).
      split; [exact Hdel |]. constructor; [exact Hdel | constructor].
    + split; [done | constructor].
  - unfold mbind, M_bind, open_w, json_dump, world_of, events_of. simpl.
    assert (Hins : ∀ (v : FileData) (m : gmap string FileData),
              m !! name = fs !! name ->
              <["peers.json" := v]> m !! name = fs !! name).
    { intros v m Hm. by rewrite lookup_insert_ne. }
    split; [by apply Hins, Hins |].
    constructor; [by apply Hins |].
    constructor; [by apply Hins, Hins | constructor].
Qed.

Lemma overwrite_peers_other_files_witness :
  world_of (overwrite_peers [outgoing_peer]
              (<["chain/0" := Binary [1; 2]]> old_disk)) !! "chain/0"
  = Some (Binary [1; 2]).
Proof.
  destruct (overwrite_peers_other_files [outgoing_peer]
              (<["chain/0" := Binary [1; 2]]> old_disk) "chain/0")
    as [Hafter _]; [discriminate |].
  rewrite Hafter. reflexivity.
Defined.

(** X2. Calling [overwrite_peers] a second time with the same peers: with a
    qualifying peer the file is truncated and written again and the disk ends
    as the first call left it; with none the second call always raises
    [FileNotFoundError], since the first call left no file. *)
Theorem overwrite_peers_twice (peers : list ConnectedRemotePeer)
    (fs : gmap string FileData) :
  let fs1 := world_of (overwrite_peers peers fs) in
  overwrite_peers peers fs1 =
    match peers_db peers with
    | _ :: _ => (Returns tt, fs1, [<["peers.json" := Binary []]> fs1; fs1])
    | [] => (Raises (mkExc FileNotFoundError "peers.json"), fs1, [])
    end.
Proof.
  unfold overwrite_peers. destruct (peers_db peers) as [| t db]; simpl.
  - unfold os_remove, world_of.
    destruct (fs !! "peers.json") eqn:Hf; simpl.
    + by rewrite lookup_delete_eq.
    + by rewrite Hf.
  - unfold mbind, M_bind, open_w, json_dump, world_of. simpl.
    by rewrite !insert_insert_eq.
Qed.

(** X3. The address book lists the qualifying peers in the order of the list
    it is given, one entry per qualifying peer, duplicates included: a single
    peer gives its tuple if it is outgoing and past its handshake and nothing
    otherwise, and a list gives what its parts give, one after the other.
    The direction of every entry is [OUTGOING]. *)
Theorem peers_db_outgoing_in_order (peers more : list ConnectedRemotePeer) :
  peers_db (peers ++ more) = peers_db peers ++ peers_db more ∧
  (∀ p, peers_db [p] =
          if decide (direction p = OUTGOING ∧ hello_received p = true)
          then [(host p, port p, direction p)] else []) ∧
  length (peers_db peers) =
    length (filter (fun p => direction p = OUTGOING ∧ hello_received p = true)
              peers) ∧
  Forall (fun t : PeerTuple => t.2 = OUTGOING) (peers_db peers) ∧
  (length (peers_db peers) <= length peers)%nat.
Proof.
  split; [| split; [| split; [| split]]].
  - unfold peers_db. by rewrite List.filter_app, fmap_app.
  - intros p. rewrite peers_db_filter, filter_cons, filter_nil.
    by destruct (decide _).
  - by rewrite peers_db_filter, length_fmap.
  - unfold peers_db. apply Forall_fmap, Forall_forall. intros p Hp. simpl.
    apply list_elem_of_In, filter_In in Hp. destruct Hp as [_ Hq].
    unfold qualifies in Hq. apply andb_true_iff in Hq.
    destruct Hq as [Hd _]. by apply bool_decide_eq_true in Hd.
  - unfold peers_db. rewrite length_fmap. apply List.filter_length_le.
Qed.

(** * Further properties of LocalPeer *)

Section LocalPeerMore.

Context {Env : Type} `{Ext : Externals Env}.

Local Abbreviation LP := (M (World Env) Event).

Ltac lp_unfold :=
  unfold logger, emit, os_call, app_call, get_world, modify_world, throw,
    try_except, try_finally, mbind, M_bind, mret, M_ret,
    result_of, world_of, events_of in *.

(** X4. Below the cap, when the socket is created, made non-blocking and
    its descriptor is free, [start_outgoing_connection] registers the peer
    and reports it to the Network Manager, whatever [connect_ex] returned:
    its error code is not looked at. *)
Theorem start_outgoing_connection_registers
    (disconnected_peer : DisconnectedRemotePeer) (w : World Env)
    (fd errno : Z) (e1 e2 e3 : Env) :
  Z.of_nat (size (selector_map w))
    < dict_get MAX_SELECTOR_SIZE_BY_PLATFORM sys_platform 64 ->
  socket_new (env w) = (Returns fd, e1) ->
  sock_setblocking fd false e1 = (Returns tt, e2) ->
  sock_connect_ex fd (d_host disconnected_peer, d_port disconnected_peer) e2
    = (Returns errno, e3) ->
  selector_map w !! fd = None ->
  sock_closed fd e3 = false ->
  let remote_peer := as_connected disconnected_peer fd in
  let registered :=
    mkWorld (running w) (<[fd := PeerData remote_peer]> (selector_map w)) e3 in
  start_outgoing_connection disconnected_peer w =
    ((handle_peer_connected remote_peer registered).1,
     (handle_peer_connected remote_peer registered).2,
     [Log INFO "%15s LocalPeer.start_outgoing_connection()"
        [d_host disconnected_peer];
      SocketNew; SetBlocking fd false;
      ConnectEx fd (d_host disconnected_peer, d_port disconnected_peer);
      Register fd (PeerData remote_peer); HandlePeerConnected remote_peer]) ∧
  Z.of_nat (size (selector_map registered))
    ≤ dict_get MAX_SELECTOR_SIZE_BY_PLATFORM sys_platform 64.
Proof.
  intros Hroom Hnew Hblock Hconn Hfree Hopen remote_peer registered. split.
  - unfold start_outgoing_connection, selector_register. lp_unfold.
    destruct w as [run map e]. simpl in *.
    rewrite bool_decide_eq_false_2 by lia. simpl.
    rewrite Hnew. simpl. rewrite Hblock. simpl. rewrite Hconn. simpl.
    rewrite Hfree, Hopen. simpl. fold remote_peer.
    unfold set_selector_map. simpl. fold registered.
    by destruct (handle_peer_connected remote_peer registered).
  - unfold registered. simpl. rewrite map_size_insert_None by done. lia.
Qed.

(** X5. As long as being told of a connection does not make the Network
    Manager change the registration map, [start_outgoing_connection] keeps
    the number of registered descriptors within the cap, whatever the sockets
    do. *)
Theorem outgoing_respects_cap
    (disconnected_peer : DisconnectedRemotePeer) (w : World Env) :
  (∀ p w0, selector_map (handle_peer_connected p w0).2 = selector_map w0) ->
  Z.of_nat (size (selector_map w))
    ≤ dict_get MAX_SELECTOR_SIZE_BY_PLATFORM sys_platform 64 ->
  Z.of_nat (size (selector_map
     (world_of (start_outgoing_connection disconnected_peer w))))
    ≤ dict_get MAX_SELECTOR_SIZE_BY_PLATFORM sys_platform 64.
Proof.
  intros Hframe Hcap.
  unfold start_outgoing_connection, selector_register. lp_unfold.
  destruct w as [run map e]. simpl in *.
  case_bool_decide as Hfull; simpl; [exact Hcap |].
  destruct (socket_new e) as [[fd | ex] e1]; simpl; [| exact Hcap].
  destruct (sock_setblocking fd false e1) as [[[] | ex] e2]; simpl;
    [| exact Hcap].
  destruct (sock_connect_ex fd _ e2) as [[errno | ex] e3]; simpl;
    [| exact Hcap].
  destruct (map !! fd) eqn:Hfd; simpl; [exact Hcap |].
  destruct (sock_closed fd e3); simpl; [exact Hcap |].
  match goal with
  | |- context [handle_peer_connected ?p ?w0] =>
      specialize (Hframe p w0);
      destruct (handle_peer_connected p w0) as [r w']
  end.
  simpl in *. rewrite Hframe. unfold set_selector_map. simpl.
  rewrite map_size_insert_None by done. lia.
Qed.

(** X6. A [stop] issued before [run] has no effect: [run] sets the flag
    again before it looks at it.  The flag only matters inside the loop: an
    iteration that returns with the flag unset is the last one, and the loop
    ends with what that iteration did. *)
Theorem stop_before_run_is_lost (fuel : nat) (w : World Env) :
  run fuel (world_of (stop w)) = run fuel w ∧
  (running w = true ->
   result_of (run_iteration w) = Returns tt ->
   running (world_of (run_iteration w)) = false ->
   run_loop (S fuel) w = Some (run_iteration w)).
Proof.
  split; [reflexivity |].
  intros Hrun Hret Hstop. cbn [run_loop]. rewrite Hrun. cbn [negb].
  unfold result_of, world_of in *.
  destruct (run_iteration w) as [[r w1] t1]. simpl in *. subst r.
  destruct fuel; simpl; rewrite Hstop; simpl; by rewrite app_nil_r.
Qed.

(** X7. Disconnecting a peer whose socket is registered: the descriptor is
    unregistered first; if closing the socket then fails, the failure is
    logged and the Network Manager is never told, although the selector no
    longer tracks the peer; otherwise the Network Manager is told, from the
    world in which the socket is unregistered and closed. *)
Theorem disconnect_registered (p : ConnectedRemotePeer) (reason : string)
    (w : World Env) (d : KeyData) :
  selector_map w !! sock p = Some d ->
  let unregistered e :=
    mkWorld (running w) (delete (sock p) (selector_map w)) e in
  match sock_close (sock p) (env w) with
  | (Raises e, e1) =>
      disconnect p reason w =
        (Returns tt, unregistered e1,
         [Log INFO "%15s LocalPeer.disconnect(%s)" [host p; reason];
          Unregister (sock p); SockClose (sock p);
          Log INFO "%15s Error while disconnecting %s" [""; exc_msg e]])
  | (Returns _, e1) =>
      world_of (disconnect p reason w) =
        (handle_peer_disconnected p (unregistered e1)).2 ∧
      calls_of (events_of (disconnect p reason w)) =
        [Unregister (sock p); SockClose (sock p); HandlePeerDisconnected p]
  end.
Proof.
  intros Hreg unregistered.
  unfold disconnect, selector_unregister. lp_unfold.
  destruct w as [run map e]. simpl in *. rewrite Hreg. simpl.
  destruct (sock_close (sock p) e) as [[[] | ex] e1]; simpl; [| done].
  unfold set_selector_map, set_env. simpl. fold (unregistered e1).
  by destruct (handle_peer_disconnected p (unregistered e1)) as [[[] | ex] w'].
Qed.

End LocalPeerMore.

Section LocalPeerDispatch.

Context {Env : Type} `{Ext : Externals Env}.

Local Abbreviation LP := (M (World Env) Event).

Ltac lp_unfold :=
  unfold logger, emit, os_call, app_call, get_world, modify_world, throw,
    try_except, try_finally, mbind, M_bind, mret, M_ret,
    result_of, world_of, events_of in *.

Lemma peer_event_returns (key : SelectorKey) (mask : Z) (w : World Env)
    (p : ConnectedRemotePeer) :
  data key = PeerData p ->
  result_of (handle_remote_peer_selector_event key mask w) = Returns tt.
Proof.
  intros Hdata. unfold handle_remote_peer_selector_event. rewrite Hdata.
  unfold try_except.
  destruct (peer_event_body p (fileobj key) mask w) as [[[[] | e] w1] t1];
    [done |].
  simpl. unfold except_OSError, except_Exception.
  destruct (is_OSError (exc_class e)).
  - by rewrite on_OSError_disconnects.
  - by destruct (on_Exception_disconnects p e w1) as (logs & _ & ->).
Qed.

Lemma dispatch_peer_events_return (events : list (SelectorKey * Z))
    (w : World Env) :
  Forall (fun km => data km.1 ≠ LISTENING_SOCKET) events ->
  result_of (dispatch_events events w) = Returns tt.
Proof.
  intros Hpeers. revert w.
  induction Hpeers as [| [key mask] rest Hkey _ IH]; intros w; [done |].
  simpl in Hkey. cbn [dispatch_events].
  unfold mbind, M_bind, get_world, mret, M_ret, result_of. cbn beta iota.
  destruct (negb (running w)); [done |].
  destruct (data key) as [| p] eqn:Hdata; [done |].
  pose proof (peer_event_returns key mask w p Hdata) as Hret.
  unfold result_of in Hret.
  destruct (handle_remote_peer_selector_event key mask w) as [[r w1] t1].
  simpl in Hret. subst r. specialize (IH w1). unfold result_of in IH.
  by destruct (dispatch_events rest w1) as [[r2 w2] t2]; simpl in *; subst.
Qed.

(** X8. When the keys [select] reports all belong to peers,
    [handle_selector_events] returns normally, whatever the sockets and the
    sessions do: no peer can make the loop end. *)
Theorem peer_events_never_raise (w : World Env)
    (events : list (SelectorKey * Z)) (e1 : Env) :
  selector_select (selector_map w) 1 (env w) = (Returns events, e1) ->
  Forall (fun km => data km.1 ≠ LISTENING_SOCKET) events ->
  result_of (handle_selector_events w) = Returns tt.
Proof.
  intros Hselect Hpeers. unfold handle_selector_events, os_call, get_world.
  unfold mbind, M_bind, result_of. cbn beta iota. rewrite Hselect.
  cbn beta iota.
  pose proof (dispatch_peer_events_return events (set_env e1 w) Hpeers) as Hret.
  unfold result_of in Hret.
  by destruct (dispatch_events events (set_env e1 w)) as [[r w1] t1];
    simpl in *; subst.
Qed.

(** X9. When the handling of an event leaves the stop flag set, the events
    that [select] reported after it are dropped. *)
Theorem stop_drops_remaining_events (key : SelectorKey) (mask : Z)
    (rest : list (SelectorKey * Z)) (w : World Env) :
  let handler : LP unit :=
    match data key with
    | LISTENING_SOCKET => handle_incoming_connection (fileobj key)
    | PeerData _ => handle_remote_peer_selector_event key mask
    end in
  running w = true ->
  running (world_of (handler w)) = false ->
  dispatch_events ((key, mask) :: rest) w = handler w.
Proof.
  intros handler Hrun Hstop. cbn [dispatch_events].
  unfold mbind, M_bind, get_world, mret, M_ret. cbn beta iota.
  rewrite Hrun. cbn [negb]. fold handler. unfold world_of in Hstop.
  destruct (handler w) as [[[[] | e] w1] t1]; [| done].
  simpl in Hstop. rewrite (dispatch_events_stopped rest w1 Hstop).
  by rewrite app_nil_r.
Qed.

(** X10. The remote side has closed the connection and the socket is also
    ready for writing: the peer is disconnected and [handle_can_send] is
    still called afterwards, from the world the disconnection left. *)
Theorem remote_close_then_write (p : ConnectedRemotePeer) (fd mask : Z)
    (w : World Env) (e1 : Env) :
  Z.land mask EVENT_READ ≠ 0 ->
  Z.land mask EVENT_WRITE ≠ 0 ->
  sock_recv fd 1024 (env w) = (Returns [], e1) ->
  let closing := disconnect p "connection closed remotely" (set_env e1 w) in
  let sending := handle_can_send p fd (world_of closing) in
  peer_event_body p fd mask w =
    (sending.1, sending.2,
     Recv fd 1024 :: events_of closing ++ [HandleCanSend p fd]).
Proof.
  intros Hread Hwrite Hrecv closing sending.
  unfold peer_event_body.
  rewrite !bool_decide_eq_true_2 by done.
  unfold os_call, app_call, mbind, M_bind. cbn beta iota.
  rewrite Hrecv. cbn beta iota.
  pose proof (disconnect_returns p "connection closed remotely" (set_env e1 w))
    as Hret.
  fold closing in Hret |- *. unfold sending, result_of, world_of, events_of in *.
  destruct closing as [[r w1] t1]. simpl in *. subst r. simpl.
  by destruct (handle_can_send p fd w1) as [r2 w2].
Qed.

(** X11. A failure of [accept] on the listening socket is not caught by the
    event handling: it ends the loop.  [run] logs it, closes the selector and
    returns, with the running flag still set; the other pending events are
    not handled. *)
Theorem accept_failure_ends_run (fuel : nat) (w w1 w2 : World Env)
    (key : SelectorKey) (mask : Z) (rest : list (SelectorKey * Z))
    (e : PyExc) (e1 e2 : Env) :
  let w0 := set_running true w in
  let t := time_now (env w0) in
  manager_step NetworkManager t w0 = (Returns tt, w1) -> running w1 = true ->
  manager_step ChainManager t w1 = (Returns tt, w2) -> running w2 = true ->
  selector_select (selector_map w2) 1 (env w2)
    = (Returns ((key, mask) :: rest), e1) ->
  data key = LISTENING_SOCKET ->
  sock_accept (fileobj key) e1 = (Raises e, e2) ->
  run (S fuel) w =
    Some (Returns tt, mkWorld true ∅ e2,
          [ManagerStep NetworkManager t; ManagerStep ChainManager t;
           Select 1;
           Log INFO "%15s LocalPeer.handle_incoming_connection()" [""];
           Accept (fileobj key);
           Log ERROR "Uncaught exception in LocalPeer.run()" [];
           Log ERROR "traceback" [exc_msg e];
           Log INFO "%15s LocalPeer selector close" [""];
           SelectorClose;
           Log INFO "%15s LocalPeer selector closed" [""]]).
Proof.
  intros w0 t Hnm Hrun1 Hcm Hrun2 Hselect Hdata Haccept.
  assert (Hevents : handle_selector_events w2 =
    (Raises e, set_env e2 w2,
     [Select 1; Log INFO "%15s LocalPeer.handle_incoming_connection()" [""];
      Accept (fileobj key)])).
  { unfold handle_selector_events, os_call, get_world.
    unfold mbind at 1 2, M_bind at 1 2. cbn beta iota. rewrite Hselect.
    cbn beta iota. cbn [dispatch_events].
    unfold mbind at 1 2, M_bind at 1 2, get_world. cbn beta iota.
    replace (running (set_env e1 w2)) with true by (symmetry; exact Hrun2).
    cbn [negb]. rewrite Hdata. unfold handle_incoming_connection.
    lp_unfold. simpl. rewrite Haccept. reflexivity. }
  assert (Hiter : run_iteration w0 =
    (Raises e, set_env e2 w2,
     [ManagerStep NetworkManager t; ManagerStep ChainManager t; Select 1;
      Log INFO "%15s LocalPeer.handle_incoming_connection()" [""];
      Accept (fileobj key)])).
  { rewrite (run_iteration_unfold w0 eq_refl). fold t.
    rewrite Hnm, Hrun1, Hcm, Hevents. reflexivity. }
  unfold run. fold w0. cbn [run_loop]. rewrite Hiter.
  unfold w0 at 1. simpl. unfold run_epilogue, selector_close. lp_unfold.
  simpl. unfold set_selector_map, set_env. simpl. by rewrite Hrun2.
Qed.

End LocalPeerDispatch.

Lemma start_outgoing_connection_registers_witness :
  selector_map
    (world_of (start_outgoing_connection (Ext := Sim.sim_externals "linux")
                 Sim.candidate Sim.listening_world)) !! 4
  = Some (PeerData (as_connected Sim.candidate 4)).
Proof.
  destruct (start_outgoing_connection_registers
              (Ext := Sim.sim_externals "linux")
              Sim.candidate Sim.listening_world 4 115
              (Sim.mkSim 5 [] [] [] false false false)
              (Sim.mkSim 5 [] [] [] false false false)
              (Sim.mkSim 5 [] [] [] false false false))
    as [Hcall _]; [reflexivity .. |].
  rewrite Hcall. reflexivity.
Defined.

Lemma outgoing_respects_cap_witness :
  Z.of_nat (size (selector_map
     (world_of (start_outgoing_connection (Ext := Sim.sim_externals "linux")
                  Sim.candidate Sim.listening_world)))) ≤ 512.
Proof.
  apply (outgoing_respects_cap (Ext := Sim.sim_externals "linux")
           Sim.candidate Sim.listening_world).
  - intros p w0. reflexivity.
  - vm_compute. discriminate.
Defined.

Lemma disconnect_registered_witness :
  disconnect (Ext := Scenarios.failing_close) outgoing_peer "OS error"
    Sim.reset_world
  = (Returns tt,
     mkWorld true ∅ (Sim.mkSim 6 [] [outgoing_peer] [] true false false),
     [Log INFO "%15s LocalPeer.disconnect(%s)" ["10.0.0.7"; "OS error"];
      Unregister 5; SockClose 5;
      Log INFO "%15s Error while disconnecting %s" [""; "Bad file descriptor"]]).
Proof.
  pose proof (disconnect_registered (Ext := Scenarios.failing_close)
                outgoing_peer "OS error" Sim.reset_world
                (PeerData outgoing_peer) eq_refl) as Hclose.
  cbv zeta in Hclose. simpl in Hclose. rewrite Hclose. reflexivity.
Defined.

Lemma peer_events_never_raise_witness :
  result_of (handle_selector_events (Ext := Sim.sim_externals "linux")
               Scenarios.two_resets_world) = Returns tt.
Proof.
  apply (peer_events_never_raise (Ext := Sim.sim_externals "linux")
           Scenarios.two_resets_world
           [(mkKey 5 (PeerData outgoing_peer), 1);
            (mkKey 6 (PeerData Scenarios.second_peer), 1)]
           (Sim.mkSim 7 [] [outgoing_peer; Scenarios.second_peer] []
              true false false)).
  - reflexivity.
  - repeat constructor; discriminate.
Defined.

Lemma stop_drops_remaining_events_witness :
  events_of
    (dispatch_events (Ext := Scenarios.stopping_session)
       [(mkKey 5 (PeerData outgoing_peer), 1);
        (mkKey 6 (PeerData Scenarios.second_peer), 1)]
       Scenarios.two_peers_world)
  = [Recv 5 1024; HandleReceiveData outgoing_peer [104; 105]].
Proof.
  rewrite (stop_drops_remaining_events (Ext := Scenarios.stopping_session)
             (mkKey 5 (PeerData outgoing_peer)) 1
             [(mkKey 6 (PeerData Scenarios.second_peer), 1)]
             Scenarios.two_peers_world); reflexivity.
Defined.

Lemma remote_close_then_write_witness :
  events_of
    (peer_event_body (Ext := Scenarios.remote_close) outgoing_peer 5 3
       Sim.reset_world)
  = [Recv 5 1024;
     Log INFO "%15s LocalPeer.disconnect(%s)"
       ["10.0.0.7"; "connection closed remotely"];
     Unregister 5; SockClose 5; HandlePeerDisconnected outgoing_peer;
     HandleCanSend outgoing_peer 5].
Proof.
  rewrite (remote_close_then_write (Ext := Scenarios.remote_close)
             outgoing_peer 5 3 Sim.reset_world (env Sim.reset_world));
    [reflexivity | discriminate | discriminate | reflexivity].
Defined.

Lemma accept_failure_ends_run_witness :
  run (Ext := Scenarios.failing_accept) 1 Scenarios.pending_connection_world
  = Some (Returns tt,
          mkWorld true ∅ (Sim.mkSim 4 [] [] [] false false false),
          [ManagerStep NetworkManager 1615209942;
           ManagerStep ChainManager 1615209942;
           Select 1;
           Log INFO "%15s LocalPeer.handle_incoming_connection()" [""];
           Accept 3;
           Log ERROR "Uncaught exception in LocalPeer.run()" [];
           Log ERROR "traceback" ["Resource temporarily unavailable"];
           Log INFO "%15s LocalPeer selector close" [""];
           SelectorClose;
           Log INFO "%15s LocalPeer selector closed" [""]]).
Proof.
  apply (accept_failure_ends_run (Ext := Scenarios.failing_accept) 0
           Scenarios.pending_connection_world
           (set_running true Scenarios.pending_connection_world)
           (set_running true Scenarios.pending_connection_world)
           (mkKey 3 LISTENING_SOCKET) 1 []
           (mkExc BlockingIOError "Resource temporarily unavailable")
           (Sim.mkSim 4 [] [] [] false false false)
           (Sim.mkSim 4 [] [] [] false false false)); reflexivity.
Defined.

(** * Properties of the read-outs *)

Import Stats.

Lemma dict_lookup_set {V} (k k' : string) (v : V) (d : list (string * V)) :
  dict_lookup k' (dict_set k v d) =
    if bool_decide (k' = k) then Some v else dict_lookup k' d.
Proof.
  induction d as [| [k0 v0] d IH]; simpl.
  - by repeat case_bool_decide.
  - repeat case_bool_decide; simpl; repeat case_bool_decide;
      subst; try congruence; by rewrite ?IH; repeat case_bool_decide.
Qed.

Lemma dict_lookup_keys {V} (k : string) (d : list (string * V)) :
  dict_lookup k d = None <-> k ∉ d.*1.
Proof.
  induction d as [| [k0 v0] d IH]; simpl.
  - split; [intros _; apply not_elem_of_nil | done].
  - rewrite not_elem_of_cons. case_bool_decide as Hk.
    + split; [done | intros [Hne _]; by destruct Hne].
    + rewrite IH. tauto.
Qed.

Lemma dict_set_keys {V} (k : string) (v : V) (d : list (string * V)) :
  (dict_set k v d).*1 =
    match dict_lookup k d with Some _ => d.*1 | None => d.*1 ++ [k] end.
Proof.
  induction d as [| [k0 v0] d IH]; [done |].
  cbn [dict_set dict_lookup]. case_bool_decide; [by subst |].
  rewrite !fmap_cons, IH. by destruct (dict_lookup k d).
Qed.

(** Replacing a value changes a column sum by the difference of the values. *)
Lemma dict_set_sum (f : Z * Z -> Z) (k : string) (v : Z * Z)
    (d : list (string * (Z * Z))) :
  foldr (fun row acc => f row.2 + acc) 0 (dict_set k v d) =
    foldr (fun row acc => f row.2 + acc) 0 d + f v
    - match dict_lookup k d with Some old => f old | None => 0 end.
Proof.
  induction d as [| [k0 v0] d IH]; simpl; [lia |].
  case_bool_decide; simpl; [lia |]. rewrite IH. lia.
Qed.

(** What one pass of the loop does to the entry of a host. *)
Lemma count_peer_lookup (d : list (string * (Z * Z))) (p : ConnectedRemotePeer)
    (h : string) :
  dict_lookup h (count_peer d p) =
    if bool_decide (h = host p) then
      let old := default (0, 0) (dict_lookup (host p) d) in
      Some (if bool_decide (direction p = INCOMING)
            then (old.1 + 1, old.2) else (old.1, old.2 + 1))
    else dict_lookup h d.
Proof.
  unfold count_peer.
  destruct (dict_lookup (host p) d) as [[i o] |] eqn:Hold; simpl.
  - rewrite Hold. case_bool_decide as Hdir; rewrite dict_lookup_set;
      by case_bool_decide.
  - rewrite dict_lookup_set, bool_decide_eq_true_2 by done.
    case_bool_decide as Hdir; rewrite !dict_lookup_set;
      by repeat case_bool_decide.
Qed.

Lemma count_peer_keys (d : list (string * (Z * Z))) (p : ConnectedRemotePeer) :
  (count_peer d p).*1 =
    match dict_lookup (host p) d with
    | Some _ => d.*1
    | None => d.*1 ++ [host p]
    end.
Proof.
  unfold count_peer.
  destruct (dict_lookup (host p) d) as [[i o] |] eqn:Hold; simpl.
  - rewrite Hold. case_bool_decide; by rewrite dict_set_keys, Hold.
  - rewrite dict_lookup_set, bool_decide_eq_true_2 by done.
    case_bool_decide; rewrite !dict_set_keys, Hold, dict_lookup_set,
      bool_decide_eq_true_2 by done; done.
Qed.

Lemma count_peer_sum (f : Z * Z -> Z) (d : list (string * (Z * Z)))
    (p : ConnectedRemotePeer) :
  f (0, 0) = 0 ->
  foldr (fun row acc => f row.2 + acc) 0 (count_peer d p) =
    foldr (fun row acc => f row.2 + acc) 0 d
    + (let old := default (0, 0) (dict_lookup (host p) d) in
       f (if bool_decide (direction p = INCOMING)
          then (old.1 + 1, old.2) else (old.1, old.2 + 1)) - f old).
Proof.
  intros Hzero. unfold count_peer.
  destruct (dict_lookup (host p) d) as [[i o] |] eqn:Hold; simpl.
  - rewrite Hold. case_bool_decide; rewrite dict_set_sum, Hold; simpl; lia.
  - rewrite dict_lookup_set, bool_decide_eq_true_2 by done.
    case_bool_decide; rewrite !dict_set_sum, Hold, dict_lookup_set,
      bool_decide_eq_true_2 by done; rewrite Hzero; simpl; lia.
Qed.

Lemma per_host_counts_snoc (l : list ConnectedRemotePeer)
    (p : ConnectedRemotePeer) :
  per_host_counts (l ++ [p]) = count_peer (per_host_counts l) p.
Proof. unfold per_host_counts. apply foldl_snoc. Qed.

Lemma incoming_from_snoc (h : string) (l : list ConnectedRemotePeer)
    (p : ConnectedRemotePeer) :
  incoming_from h (l ++ [p]) =
    incoming_from h l
    + (if bool_decide (host p = h) && bool_decide (direction p = INCOMING)
       then 1 else 0).
Proof.
  unfold incoming_from. rewrite List.filter_app, length_app, Nat2Z.inj_add.
  simpl. by destruct (_ && _).
Qed.

Lemma not_incoming_from_snoc (h : string) (l : list ConnectedRemotePeer)
    (p : ConnectedRemotePeer) :
  not_incoming_from h (l ++ [p]) =
    not_incoming_from h l
    + (if bool_decide (host p = h)
          && negb (bool_decide (direction p = INCOMING))
       then 1 else 0).
Proof.
  unfold not_incoming_from. rewrite List.filter_app, length_app, Nat2Z.inj_add.
  simpl. by destruct (_ && _).
Qed.

Lemma per_host_counts_default (l : list ConnectedRemotePeer) (h : string) :
  default (0, 0) (dict_lookup h (per_host_counts l)) =
    (incoming_from h l, not_incoming_from h l).
Proof.
  revert h. induction l as [| p l IH] using rev_ind; intros h; [done |].
  rewrite per_host_counts_snoc, count_peer_lookup, incoming_from_snoc,
    not_incoming_from_snoc.
  case_bool_decide as Hh.
  - subst h. rewrite (IH (host p)).
    rewrite !(bool_decide_eq_true_2 (host p = host p)) by done. simpl.
    case_bool_decide; simpl; f_equal; lia.
  - rewrite !(bool_decide_eq_false_2 (host p = h)) by congruence. simpl.
    rewrite IH. f_equal; lia.
Qed.

Lemma per_host_counts_missing (l : list ConnectedRemotePeer) (h : string) :
  dict_lookup h (per_host_counts l) = None <-> h ∉ host <$> l.
Proof.
  revert h. induction l as [| p l IH] using rev_ind; intros h.
  - split; [intros _; apply not_elem_of_nil | done].
  - rewrite per_host_counts_snoc, count_peer_lookup, fmap_app, not_elem_of_app.
    simpl. rewrite not_elem_of_cons. case_bool_decide as Hh.
    + split; [done | tauto].
    + rewrite IH. split; [| tauto].
      intros Hl. split; [done |]. split; [done | apply not_elem_of_nil].
Qed.

Lemma per_host_counts_NoDup (l : list ConnectedRemotePeer) :
  NoDup (per_host_counts l).*1.
Proof.
  induction l as [| p l IH] using rev_ind; [constructor |].
  rewrite per_host_counts_snoc, count_peer_keys.
  destruct (dict_lookup (host p) (per_host_counts l)) eqn:Hold; [done |].
  apply NoDup_app. split; [done |]. split; [| apply NoDup_singleton].
  intros h Hin Hp. apply list_elem_of_singleton in Hp. subst h.
  by apply dict_lookup_keys in Hold.
Qed.

Lemma per_host_counts_total (l : list ConnectedRemotePeer) :
  table_total (per_host_counts l) = Z.of_nat (length l).
Proof.
  induction l as [| p l IH] using rev_ind; [done |].
  rewrite per_host_counts_snoc, length_app, Nat2Z.inj_add. simpl.
  pose proof (count_peer_sum (fun v => v.1 + v.2) (per_host_counts l) p eq_refl)
    as Hstep.
  unfold table_total in *. simpl in Hstep. rewrite Hstep, IH.
  case_bool_decide; simpl; lia.
Qed.

(** X12. The table of [show_network_stats] accounts for every connected
    peer exactly once: it has one row per host, as many rows as the unique
    hosts reported above it; the row of a host counts its incoming peers and,
    as outgoing, all its other peers; and the two columns add up to the
    number of connected peers.  The method calls [print] five times and then
    once per row. *)
Theorem per_host_counts_account_for_peers
    (active : list ConnectedRemotePeer) :
  (∀ h, dict_lookup h (per_host_counts active) =
          if bool_decide (h ∈ host <$> active)
          then Some (incoming_from h active, not_incoming_from h active)
          else None) ∧
  NoDup (per_host_counts active).*1 ∧
  length (per_host_counts active) = unique_hosts active ∧
  table_total (per_host_counts active) = Z.of_nat (length active) ∧
  length (show_network_stats active) = (5 + unique_hosts active)%nat.
Proof.
  assert (Hrows : length (per_host_counts active) = unique_hosts active).
  { unfold unique_hosts.
    replace (list_to_set (host <$> active) : gset string)
      with (list_to_set (per_host_counts active).*1 : gset string).
    - rewrite size_list_to_set by apply per_host_counts_NoDup.
      by rewrite length_fmap.
    - apply set_eq. intros h. rewrite !elem_of_list_to_set.
      pose proof (per_host_counts_missing active h) as Hmiss.
      pose proof (dict_lookup_keys h (per_host_counts active)) as Hkeys.
      destruct (decide (h ∈ (per_host_counts active).*1));
        destruct (decide (h ∈ host <$> active)); tauto. }
  split; [| split; [apply per_host_counts_NoDup | split; [exact Hrows |]]].
  - intros h. pose proof (per_host_counts_default active h) as Hdef.
    pose proof (per_host_counts_missing active h) as Hmiss.
    case_bool_decide as Hin.
    + destruct (dict_lookup h (per_host_counts active)) as [v |];
        [simpl in Hdef; by subst v | tauto].
    + tauto.
  - split; [apply per_host_counts_total |].
    unfold show_network_stats. rewrite length_app, length_fmap, Hrows. done.
Qed.

Lemma per_host_counts_outgoing (l : list ConnectedRemotePeer) :
  outgoing_total (per_host_counts l) =
    Z.of_nat (length (List.filter
      (fun p => negb (bool_decide (direction p = INCOMING))) l)).
Proof.
  induction l as [| p l IH] using rev_ind; [done |].
  rewrite per_host_counts_snoc, List.filter_app, length_app, Nat2Z.inj_add.
  pose proof (count_peer_sum (fun v => v.2) (per_host_counts l) p eq_refl)
    as Hstep.
  unfold outgoing_total in *. simpl in Hstep. rewrite Hstep, IH. simpl.
  case_bool_decide; simpl; lia.
Qed.

(** X13. The outgoing column of the table counts more than the "listening
    hosts" line above it: a peer whose direction is neither incoming nor
    outgoing is counted as outgoing in the table only. *)
Theorem outgoing_column_counts_irrelevant (active : list ConnectedRemotePeer) :
  outgoing_total (per_host_counts active) =
    Z.of_nat (listening_hosts active)
    + Z.of_nat (length (List.filter
        (fun p => bool_decide (direction p = IRRELEVANT)) active)).
Proof.
  rewrite per_host_counts_outgoing. unfold listening_hosts.
  rewrite <- Nat2Z.inj_add. f_equal.
  induction active as [| p active IH]; [done |]. simpl.
  destruct (direction p); simpl; rewrite IH; lia.
Qed.

Section ShowStatsFacts.

Variable str_direction : Direction -> string.
Variable irrelevant_port : PortValue.
Variable isoformat : Z -> string.

Local Abbreviation text := (stats_text str_direction irrelevant_port isoformat).
Local Abbreviation show :=
  (show_stats str_direction irrelevant_port isoformat).

(** X14. [show_stats] prints its text only when it differs from the text
    it printed last, and remembers it: called again with nothing changed, it
    prints nothing.  Without a chain state it raises and prints nothing. *)
Theorem show_stats_prints_changes_only (active : list ConnectedRemotePeer)
    (coinstate : CoinStateView) (last_stats_output : string) :
  let first := show active (Some coinstate) last_stats_output in
  first =
    (Returns tt, text active coinstate,
     if bool_decide (text active coinstate = last_stats_output) then []
     else [text active coinstate]) ∧
  show active (Some coinstate) (world_of first) =
    (Returns tt, world_of first, []) ∧
  show active None last_stats_output =
    (Raises (mkExc AssertionError ""), last_stats_output, []).
Proof.
  assert (Hfirst : show active (Some coinstate) last_stats_output =
    (Returns tt, text active coinstate,
     if bool_decide (text active coinstate = last_stats_output) then []
     else [text active coinstate])).
  { unfold show_stats, get_world, emit, modify_world, mbind, M_bind, mret,
      M_ret. cbn beta iota.
    destruct (decide (text active coinstate = last_stats_output)) as [Heq | Hne].
    - rewrite bool_decide_eq_false_2 by (intros H; by apply H).
      rewrite bool_decide_eq_true_2 by done. by rewrite Heq.
    - rewrite bool_decide_eq_true_2 by done.
      by rewrite bool_decide_eq_false_2 by done. }
  cbv zeta. rewrite Hfirst. split; [done |]. split; [| done].
  unfold world_of. simpl.
  unfold show_stats, get_world, emit, modify_world, mbind, M_bind, mret, M_ret.
  cbn beta iota. by rewrite bool_decide_eq_false_2 by (intros H; by apply H).
Qed.

Lemma fork_text_recent (head_height : Z)
    (forks : list (BlockSummary * BlockSummary)) (out : string) :
  foldl (fork_text isoformat head_height) out forks =
    foldl (fork_text isoformat head_height) out
      (List.filter
         (fun fork => negb (bool_decide (height fork.1 < head_height - 10)))
         forks).
Proof.
  revert out. induction forks as [| fork forks IH]; intros out; [done |].
  simpl. case_bool_decide as Hstale; simpl.
  - rewrite <- IH. unfold fork_text at 2.
    by rewrite bool_decide_eq_true_2 by done.
  - by rewrite IH.
Qed.

(** X15. A fork whose head is more than ten blocks below the head of the
    chain leaves no trace in the text of [show_stats]: the text is the one of
    the chain state without these forks. *)
Theorem show_stats_skips_stale_forks (active : list ConnectedRemotePeer)
    (coinstate : CoinStateView) :
  text active coinstate =
    text active (mkCoinStateView (cs_head coinstate) (recent_forks coinstate)).
Proof. unfold stats_text, recent_forks. simpl. apply fork_text_recent. Qed.

End ShowStatsFacts.

(** * What the connection set-up and the poll never do *)

Import EventKinds.

Section LocalPeerNever.

Context {Env : Type} `{Ext : Externals Env}.

Local Abbreviation LP := (M (World Env) Event).

Ltac lp_unfold :=
  unfold logger, emit, os_call, app_call, get_world, modify_world, throw,
    try_except, try_finally, mbind, M_bind, mret, M_ret,
    result_of, world_of, events_of in *.

Ltac emits_auto :=
  repeat first
    [ apply emits_ret
    | apply emits_throw
    | apply emits_get_world
    | apply emits_logger; reflexivity
    | apply emits_os_call; reflexivity
    | apply emits_app_call; reflexivity
    | apply emits_selector_register; reflexivity
    | apply emits_selector_unregister; reflexivity
    | apply emits_bind; [| intros ?]
    | apply emits_try_except; [| repeat constructor; intros ?]
    | match goal with
      | |- emits _ (if ?b then _ else _) => destruct b
      | |- emits _ (match ?x with _ => _ end) => destruct x
      end ].

Local Abbreviation unnotified :=
  (fun t : list Event => List.filter is_peer_connected t = []).

Lemma handle_incoming_connection_unnotified (lsock : Z) (w : World Env) :
  unnotified (events_of (handle_incoming_connection lsock w)) ->
  selector_map (world_of (handle_incoming_connection lsock w)) = selector_map w.
Proof.
  unfold handle_incoming_connection, selector_register. lp_unfold.
  destruct w as [run map e]. simpl.
  destruct (sock_accept lsock e) as [[conn | ex] e1]; simpl; [| done].
  destruct (sock_setblocking conn false e1) as [[[] | ex] e2]; simpl; [| done].
  destruct (sock_getpeername conn e2) as [[name0 | ex] e3]; simpl; [| done].
  destruct (sock_getpeername conn e3) as [[name1 | ex] e4]; simpl; [| done].
  destruct (map !! conn); simpl; [done |].
  destruct (sock_closed conn e4); simpl; [done |].
  by destruct (handle_peer_connected _ _) as [r w'].
Qed.

Lemma start_outgoing_connection_unnotified
    (disconnected_peer : DisconnectedRemotePeer) (w : World Env) :
  unnotified (events_of (start_outgoing_connection disconnected_peer w)) ->
  selector_map (world_of (start_outgoing_connection disconnected_peer w))
  = selector_map w.
Proof.
  unfold start_outgoing_connection, selector_register. lp_unfold.
  destruct w as [run map e]. simpl.
  case_bool_decide; simpl; [done |].
  destruct (socket_new e) as [[fd | ex] e1]; simpl; [| done].
  destruct (sock_setblocking fd false e1) as [[[] | ex] e2]; simpl; [| done].
  destruct (sock_connect_ex fd _ e2) as [[errno | ex] e3]; simpl; [| done].
  destruct (map !! fd); simpl; [done |].
  destruct (sock_closed fd e3); simpl; [done |].
  by destruct (handle_peer_connected _ _) as [r w'].
Qed.

(** X16. Setting up a connection never calls [close] on a socket, also when
    it fails, and when [handle_incoming_connection] or
    [start_outgoing_connection] stops before it has told the Network Manager,
    because accepting, creating, naming or registering the socket failed, the
    registration map is as before. *)
Theorem connection_setup_never_closes (lsock : Z)
    (disconnected_peer : DisconnectedRemotePeer) (w : World Env) :
  let incoming := handle_incoming_connection lsock w in
  let outgoing := start_outgoing_connection disconnected_peer w in
  Forall (fun ev => is_sock_close ev = false) (events_of incoming) ∧
  Forall (fun ev => is_sock_close ev = false) (events_of outgoing) ∧
  (List.filter is_peer_connected (events_of incoming) = [] ->
   selector_map (world_of incoming) = selector_map w) ∧
  (List.filter is_peer_connected (events_of outgoing) = [] ->
   selector_map (world_of outgoing) = selector_map w).
Proof.
  intros incoming outgoing. split; [| split; [| split]].
  - assert (H : emits (fun ev => is_sock_close ev = false)
                  (handle_incoming_connection lsock))
      by (unfold handle_incoming_connection; emits_auto).
    apply H.
  - assert (H : emits (fun ev => is_sock_close ev = false)
                  (start_outgoing_connection disconnected_peer))
      by (unfold start_outgoing_connection; emits_auto).
    apply H.
  - apply handle_incoming_connection_unnotified.
  - apply start_outgoing_connection_unnotified.
Qed.

Lemma dispatch_events_no_select events :
  emits (fun ev => is_select ev = false) (dispatch_events events).
Proof.
  induction events as [| [key mask] rest IH]; simpl; [apply emits_ret |].
  apply emits_bind; [apply emits_get_world | intros w].
  destruct (negb (running w)); [apply emits_ret |].
  apply emits_bind; [| intros _; exact IH].
  destruct (data key).
  - unfold handle_incoming_connection. emits_auto.
  - unfold handle_remote_peer_selector_event, peer_event_body, on_OSError,
      on_Exception, disconnect.
    emits_auto.
Qed.

(** X17. An iteration of the loop polls the selector at most once, with a
    timeout of one second, and exactly once when no manager's step raises. *)
Theorem one_poll_per_iteration (w : World Env) :
  let polls := List.filter is_select (events_of (run_iteration w)) in
  (polls = [] ∨ polls = [Select 1]) ∧
  (result_of (step_managers (time_now (env w)) w) = Returns tt ->
   polls = [Select 1]).
Proof.
  assert (Hevents : ∀ w0 : World Env,
    List.filter is_select (events_of (handle_selector_events w0)) = [Select 1]).
  { intros w0. unfold handle_selector_events, os_call, get_world.
    unfold mbind, M_bind, events_of. cbn beta iota.
    destruct (selector_select _ _ _) as [[events | ex] e1]; [| done].
    cbn beta iota.
    pose proof (dispatch_events_no_select events (set_env e1 w0)) as Hnone.
    unfold events_of in Hnone.
    destruct (dispatch_events events (set_env e1 w0)) as [[r w1] t1].
    simpl in *. f_equal. by apply filter_none. }
  assert (Hsteps : ∀ ms t (w0 : World Env),
    List.filter is_select (events_of (step_managers_from ms t w0)) = []).
  { intros ms t w0. apply filter_none.
    assert (H : emits (fun ev => is_select ev = false) (step_managers_from ms t));
      [| apply H].
    induction ms as [| m rest IH]; simpl; [apply emits_ret |].
    apply emits_bind; [apply emits_get_world | intros w1].
    destruct (negb (running w1)); [apply emits_ret |].
    apply emits_bind; [by apply emits_app_call | intros _; exact IH]. }
  assert (Hiter : events_of (run_iteration w) =
    match step_managers (time_now (env w)) w with
    | (Returns _, w1, t1) => t1 ++ events_of (handle_selector_events w1)
    | (Raises _, _, t1) => t1
    end).
  { unfold run_iteration, get_world, mbind, M_bind, events_of. cbn beta iota.
    destruct (step_managers (time_now (env w)) w) as [[[[] | ex] w1] t1];
      [| done].
    cbn beta iota. by destruct (handle_selector_events w1) as [[r w2] t2]. }
  intros polls. subst polls. rewrite Hiter.
  specialize (Hsteps managers (time_now (env w)) w).
  unfold step_managers, result_of, events_of in *.
  destruct (step_managers_from managers (time_now (env w)) w)
    as [[[[] | ex] w1] t1]; cbn [fst snd] in *.
  - rewrite List.filter_app, Hsteps, (Hevents w1).
    split; [by right | done].
  - rewrite Hsteps. split; [by left | done].
Qed.

End LocalPeerNever.
